(** * The messenger micro-frontend: stores, gateway and choreography

    A shallow embedding of the messenger application
    (frontend-app-messenger/src/messenger): the key transform utility
    (data/utils.js), the API gateway (data/service.js), the three Redux
    slices (store/slices/inboxSlice.js, messagesSlice.js, userSlice.js)
    and the handlers and effects of the components that drive them
    (components/Inbox.jsx, Conversation.jsx, newMessageModal.jsx).

    JavaScript strings are modelled by [string] (exact on ASCII text),
    numbers that the code only compares or increments by [Z], a value
    that may be [undefined] by [option], arrays by [list]. *)

From Stdlib Require Import ZArith List String Ascii Bool Lia DecimalString.
Import ListNotations.
Open Scope string_scope.
Open Scope Z_scope.

(** ** JavaScript primitives used by the sources *)
Module Js.

(** Truthiness of a string-or-undefined: [undefined] and [''] are falsy. *)
Definition truthy (v : option string) : bool :=
  match v with
  | Some s => negb (String.eqb s "")
  | None => false
  end.

(** [a || b] on strings-or-undefined. *)
Definition or_else (a b : option string) : option string :=
  if truthy a then a else b.

(** [a === b] on strings-or-undefined. *)
Definition strict_eq (a b : option string) : bool :=
  match a, b with
  | Some x, Some y => String.eqb x y
  | None, None => true
  | _, _ => false
  end.

(** [a || b] on numbers-or-undefined: [0] and [undefined] are falsy. *)
Definition num_or_else (a b : option Z) : option Z :=
  match a with
  | Some n => if n =? 0 then b else a
  | None => b
  end.

(** [n < m] where [m] may be [undefined]: the comparison with
    [undefined] is [false]. *)
Definition lt_num (n : Z) (m : option Z) : bool :=
  match m with
  | Some k => n <? k
  | None => false
  end.

(** [s[i]]: the one-character string at index [i], [undefined] past the end. *)
Definition char_at (s : string) (i : nat) : option string :=
  match String.get i s with
  | Some c => Some (String c "")
  | None => None
  end.

(** A template-literal hole [${v}]: [undefined] prints as "undefined". *)
Definition interpolate (v : option string) : string :=
  match v with
  | Some s => s
  | None => "undefined"
  end.

(** [s.split(sep)] for a one-character separator. *)
Fixpoint split (sep : ascii) (s : string) : list string :=
  match s with
  | EmptyString => [""]
  | String c rest =>
      if Ascii.eqb c sep then "" :: split sep rest
      else match split sep rest with
           | tok :: toks => String c tok :: toks
           | [] => [String c ""]
           end
  end.

(** ASCII white space, as removed by [trim]. *)
Definition is_space (c : ascii) : bool :=
  let n := nat_of_ascii c in
  ((9 <=? n) && (n <=? 13))%nat || (n =? 32)%nat.

(** [!s.trim()]: the string is empty once trimmed. *)
Fixpoint blank (s : string) : bool :=
  match s with
  | EmptyString => true
  | String c rest => is_space c && blank rest
  end.

End Js.

(** ** data/utils.js: the key transform utility *)
Module Utils.

(** A value that crosses the network boundary.  An object is the list of
    its own properties in enumeration order. *)
#[local] Unset Elimination Schemes.
Inductive value : Type :=
| VUndefined
| VNull
| VBool (b : bool)
| VNum (n : Z)
| VStr (s : string)
| VArr (items : list value)
| VObj (props : list (string * value)).
#[local] Set Elimination Schemes.

(** [result[key] = v]: overwrite the property in place, or add it last. *)
Fixpoint obj_set (result : list (string * value)) (key : string) (v : value)
  : list (string * value) :=
  match result with
  | [] => [(key, v)]
  | (k, old) :: rest =>
      if String.eqb k key then (k, v) :: rest
      else (k, old) :: obj_set rest key v
  end.

Fixpoint modifyObjectKeys (modify : string -> string) (object : value) : value :=
  match object with
  | VArr items => VArr (map (modifyObjectKeys modify) items)
  | VObj props =>
      VObj (fold_left
              (fun result kv =>
                 obj_set result (modify (fst kv)) (modifyObjectKeys modify (snd kv)))
              props [])
  | _ => object
  end.

(** *** The two casing functions *)

(** Modelled from the spec: [camelCase] and [snakeCase] are imported from
    lodash (lodash.camelcase, lodash.snakecase), which is not part of the
    sources; the spec describes them as the word-boundary casing
    conversions between the snake_case of the wire and the camelCase used
    inside.  [modifyObjectKeys] takes the casing function as its
    argument, and the general results on it hold for any pair of
    functions.  For concrete keys the two functions are given here on
    ASCII text, after lodash's word pattern: a word is a capitalised or
    lower-case run of letters, a run of capitals (which gives its last
    capital to a following lower-case run), an ordinal such as 1st or
    2ND, or a run of digits; every other character separates words;
    apostrophes are dropped first. *)
Definition is_lower (c : ascii) : bool :=
  let n := nat_of_ascii c in ((97 <=? n) && (n <=? 122))%nat.
Definition is_upper (c : ascii) : bool :=
  let n := nat_of_ascii c in ((65 <=? n) && (n <=? 90))%nat.
Definition is_digit (c : ascii) : bool :=
  let n := nat_of_ascii c in ((48 <=? n) && (n <=? 57))%nat.

Definition to_lower (c : ascii) : ascii :=
  if is_upper c then ascii_of_nat (nat_of_ascii c + 32) else c.
Definition to_upper (c : ascii) : ascii :=
  if is_lower c then ascii_of_nat (nat_of_ascii c - 32) else c.

(** Longest prefix satisfying [p], and the rest. *)
Fixpoint span (p : ascii -> bool) (cs : list ascii) : list ascii * list ascii :=
  match cs with
  | c :: rest =>
      if p c then let (run, tl) := span p rest in (c :: run, tl)
      else ([], cs)
  | [] => ([], [])
  end.

Definition head_is (p : ascii -> bool) (cs : list ascii) : bool :=
  match cs with
  | c :: _ => p c
  | [] => false
  end.

Definition is_break (c : ascii) : bool :=
  negb (is_lower c || is_upper c || is_digit c).

(** [A-Z]?[a-z]+ *)
Definition match_lower_word (cs : list ascii) : option (list ascii * list ascii) :=
  let '(cap, rest) :=
    match cs with
    | c :: tl => if is_upper c then ([c], tl) else ([], cs)
    | [] => ([], cs)
    end in
  let (run, rest') := span is_lower rest in
  match run with
  | [] => None
  | _ => Some ((cap ++ run)%list, rest')
  end.

(** [A-Z]+ followed by a break, the end, or a capitalised word. *)
Definition match_upper_word (cs : list ascii) : option (list ascii * list ascii) :=
  let (run, rest) := span is_upper cs in
  match run with
  | [] => None
  | _ =>
      match rest with
      | [] => Some (run, rest)
      | c :: _ =>
          if is_break c then Some (run, rest)
          else if is_lower c then
            match rev run with
            | last :: (_ :: _) as init => Some (rev init, last :: rest)
            | _ => None
            end
          else None
      end
  end.

(** The two letters that close an ordinal whose last digit is [d]. *)
Definition ordinal_suffix (d : ascii) : string :=
  if Ascii.eqb d "1" then "st"
  else if Ascii.eqb d "2" then "nd"
  else if Ascii.eqb d "3" then "rd"
  else "th".

(** \d*(1ST|2ND|3RD|\dTH) when [upper], its lower-case form otherwise; the
    next character must not continue the word. *)
Definition match_ordinal (upper : bool) (cs : list ascii)
  : option (list ascii * list ascii) :=
  let (digits, rest) := span is_digit cs in
  match rev digits, rest with
  | d :: _, a :: b :: rest' =>
      let suffix := list_ascii_of_string (ordinal_suffix d) in
      let suffix := if upper then map to_upper suffix else suffix in
      let continues c :=
        is_digit c || (if upper then is_upper c else is_lower c) in
      if list_eq_dec ascii_dec [a; b] suffix then
        if head_is continues rest' then None
        else Some ((digits ++ [a; b])%list, rest')
      else None
  | _, _ => None
  end.

Definition first_of {A} (alts : list (option A)) : option A :=
  fold_right (fun alt acc => match alt with Some _ => alt | None => acc end)
             None alts.

(** One step of the word scan: the word matched at the head of [cs], if any. *)
Definition match_word (cs : list ascii) : option (list ascii * list ascii) :=
  first_of
    [ match match_lower_word cs with
      | Some (w, rest) =>
          if match rest with
             | [] => true
             | c :: _ => is_break c || is_upper c
             end
          then Some (w, rest) else None
      | None => None
      end;
      match_upper_word cs;
      match_lower_word cs;
      (let (run, rest) := span is_upper cs in
       match run with [] => None | _ => Some (run, rest) end);
      match_ordinal true cs;
      match_ordinal false cs;
      (let (run, rest) := span is_digit cs in
       match run with [] => None | _ => Some (run, rest) end) ].

Fixpoint words_from (fuel : nat) (cs : list ascii) : list (list ascii) :=
  match fuel, cs with
  | S fuel', c :: rest =>
      match match_word cs with
      | Some (w, rest') => w :: words_from fuel' rest'
      | None => words_from fuel' rest
      end
  | _, _ => []
  end.

Definition words (s : string) : list (list ascii) :=
  let cs := filter (fun c => negb (Ascii.eqb c "'")) (list_ascii_of_string s) in
  words_from (List.length cs) cs.

Definition capitalize (w : list ascii) : list ascii :=
  match map to_lower w with
  | c :: rest => to_upper c :: rest
  | [] => []
  end.

Definition camelCase (s : string) : string :=
  string_of_list_ascii
    (match words s with
     | [] => []
     | w :: ws => (map to_lower w ++ List.concat (map capitalize ws))%list
     end).

Definition snakeCase (s : string) : string :=
  string_of_list_ascii
    (match words s with
     | [] => []
     | w :: ws =>
         (map to_lower w
            ++ List.concat (map (fun w' => "_"%char :: map to_lower w') ws))%list
     end).

Definition camelCaseObject (object : value) : value :=
  modifyObjectKeys camelCase object.

Definition snakeCaseObject (object : value) : value :=
  modifyObjectKeys snakeCase object.

(** No string occurs twice in the list. *)
Fixpoint distinct (keys : list string) : bool :=
  match keys with
  | [] => true
  | k :: rest => negb (existsb (String.eqb k) rest) && distinct rest
  end.

(** Every object of the value has pairwise distinct property names, as a
    JavaScript object has. *)
Fixpoint well_formed (v : value) : bool :=
  match v with
  | VArr items => forallb well_formed items
  | VObj props =>
      distinct (map fst props)
      && forallb (fun kv => well_formed (snd kv)) props
  | _ => true
  end.

(** Every property name of the value, at any depth, satisfies [p]. *)
Fixpoint all_keys (p : string -> bool) (v : value) : bool :=
  match v with
  | VArr items => forallb (all_keys p) items
  | VObj props => forallb (fun kv => p (fst kv) && all_keys p (snd kv)) props
  | _ => true
  end.

(** The property name comes back from [inner] then [outer]. *)
Definition comes_back (inner outer : string -> string) (key : string) : bool :=
  String.eqb (outer (inner key)) key.

End Utils.

(** ** data/service.js: the API gateway *)
Module Service.
Import Utils.

(** The failure of an HTTP call: [response] is [error.response.data] when
    the server answered, [None] when there is no response at all. *)
Record HttpError := { message : string; response : option value }.

(** What a gateway function throws: the failure of the call itself, an
    object created from it ([Object.create(error)]) that carries
    [processedData], or the TypeError of reading a property of
    [undefined] or [null]. *)
Inductive Thrown :=
| Original (error : HttpError)
| Processed (error : HttpError) (processedData : value)
| TypeError.

(** [data && typeof data === 'object'] *)
Definition is_object (data : value) : bool :=
  match data with
  | VArr _ | VObj _ => true
  | _ => false
  end.

Definition processAndThrowError (error : HttpError)
    (errorDataProcessor : value -> value) : Thrown :=
  match response error with
  | Some data =>
      if is_object data then Processed error (errorDataProcessor data)
      else Original error
  | None => Original error
  end.

Inductive Request :=
| PostMessage (body : value)
| PostBulkMessage (body : value)
| PatchInbox (inboxId : Z) (body : value)
| GetInbox (page : Z) (search : string)
| GetConversation (page : Z) (withUser : string)
| GetUsers (query : string)
| GetAccount (username : string).

(** The HTTP client: the response data of a call, or its failure. *)
Definition HttpClient := Request -> value + HttpError.

Section Gateway.
Variable http : HttpClient.

Definition createMessageService (payload : value) : value + Thrown :=
  let processedParams := snakeCaseObject payload in
  match http (PostMessage processedParams) with
  | inl data => inl (camelCaseObject data)
  | inr error => inr (processAndThrowError error camelCaseObject)
  end.

Definition createGroupMessagesService (payload : value) : value + Thrown :=
  let processedParams := snakeCaseObject payload in
  match http (PostBulkMessage processedParams) with
  | inl data => inl (camelCaseObject data)
  | inr error => inr (processAndThrowError error camelCaseObject)
  end.

Definition updateUnreadCountService (inboxId : Z) : value + Thrown :=
  match http (PatchInbox inboxId
                (snakeCaseObject (VObj [("unread_count", VNum 0)]))) with
  | inl data => inl (camelCaseObject data)
  | inr error => inr (processAndThrowError error camelCaseObject)
  end.

Definition fetchInboxListService (page : Z) (search : string) : value + Thrown :=
  match http (GetInbox page search) with
  | inl data => inl (camelCaseObject data)
  | inr error => inr (processAndThrowError error camelCaseObject)
  end.

Definition fetchSelectedInboxMessagesService (page : Z) (withUser : string)
  : value + Thrown :=
  match http (GetConversation page withUser) with
  | inl data => inl (camelCaseObject data)
  | inr error => inr (processAndThrowError error camelCaseObject)
  end.

Definition fetchUsersService (query : string) : value + Thrown :=
  match http (GetUsers query) with
  | inl data => inl (camelCaseObject data)
  | inr error => inr (processAndThrowError error camelCaseObject)
  end.

(** [obj.key], [undefined] when the property is absent or [obj] is no object. *)
Definition prop (key : string) (obj : value) : value :=
  match obj with
  | VObj props =>
      match find (fun kv => String.eqb (fst kv) key) props with
      | Some kv => snd kv
      | None => VUndefined
      end
  | _ => VUndefined
  end.

Definition falsy (v : value) : bool :=
  match v with
  | VUndefined | VNull | VBool false | VNum 0 | VStr "" => true
  | _ => false
  end.

Definition is_array (v : value) : bool :=
  match v with VArr _ => true | _ => false end.

(** The own enumerable properties that [{...v}] copies: those of an
    object, the indexed elements of an array or the indexed characters of
    a string, none for any other value. *)
Definition index_key (i : nat) : string :=
  NilEmpty.string_of_uint (Nat.to_uint i).

Definition own_props (v : value) : list (string * value) :=
  match v with
  | VObj props => props
  | VArr items => combine (map index_key (seq 0 (List.length items))) items
  | VStr s =>
      combine (map index_key (seq 0 (String.length s)))
              (map (fun c => VStr (String c "")) (list_ascii_of_string s))
  | _ => []
  end.

(** [{...obj, key: v, ...}] *)
Definition spread_with (obj : value) (updates : list (string * value)) : value :=
  VObj (fold_left (fun result kv => obj_set result (fst kv) (snd kv)) updates
          (own_props obj)).

(** Reading a property of [undefined] or [null] throws a TypeError: the
    result is [None] then. *)
Definition processAccountData (data : value) : option value :=
  let processedData := camelCaseObject data in
  let or_null key :=
    (key, if falsy (prop key processedData) then VNull
          else prop key processedData) in
  let array_or_empty key :=
    (key, if is_array (prop key processedData) then prop key processedData
          else VArr []) in
  match processedData with
  | VUndefined | VNull => None
  | _ =>
      Some (spread_with processedData
        [ array_or_empty "socialLinks";
          array_or_empty "languageProficiencies";
          or_null "name";
          or_null "bio";
          or_null "country";
          or_null "levelOfEducation";
          ("profileImage",
            if falsy (prop "profileImage" processedData) then VObj []
            else prop "profileImage" processedData);
          or_null "yearOfBirth" ])
  end.

(** No [catch] here: a failure of the call is thrown as it is. *)
Definition getAccountService (username : string) : value + Thrown :=
  match http (GetAccount username) with
  | inl data =>
      match processAccountData data with
      | Some account => inl account
      | None => inr TypeError
      end
  | inr error => inr (Original error)
  end.

End Gateway.

(** The seven operations of the gateway. *)
Inductive Operation :=
| CreateMessage (payload : value)
| CreateGroupMessages (payload : value)
| UpdateUnreadCount (inboxId : Z)
| FetchInboxList (page : Z) (search : string)
| FetchSelectedInboxMessages (page : Z) (withUser : string)
| FetchUsers (query : string)
| GetAccountOp (username : string).

Definition run (http : HttpClient) (op : Operation) : value + Thrown :=
  match op with
  | CreateMessage payload => createMessageService http payload
  | CreateGroupMessages payload => createGroupMessagesService http payload
  | UpdateUnreadCount inboxId => updateUnreadCountService http inboxId
  | FetchInboxList page search => fetchInboxListService http page search
  | FetchSelectedInboxMessages page withUser =>
      fetchSelectedInboxMessagesService http page withUser
  | FetchUsers query => fetchUsersService http query
  | GetAccountOp username => getAccountService http username
  end.

End Service.

(** A notification raised through react-toastify. *)
Inductive Toast :=
| ToastError (text : string)
| ToastSuccess (text : string).

(** ** store/slices/inboxSlice.js *)
Module InboxSlice.

(** An inbox entry as the gateway returns it.  [with_user] and
    [last_message] are the snake-case spellings that the slice also reads
    or writes. *)
Record InboxEntry := {
  id : Z;
  withUser : option string;
  with_user : option string;
  withUserImg : option string;
  lastMessage : option string;
  last_message : option string;
  lastMessageDate : option string;
  unreadCount : Z
}.

(** The envelope of a list call. *)
Record InboxPage := {
  results : list InboxEntry;
  numPages : option Z;
  num_pages : option Z
}.

Record State := {
  inboxList : list InboxEntry;
  selectedUser : option string;
  loading : bool;
  hasMore : bool;
  pageNumber : Z;
  searchQuery : string;
  error : option string
}.

Definition initialState : State :=
  {| inboxList := []; selectedUser := Some ""; loading := false;
     hasMore := false; pageNumber := 1; searchQuery := ""; error := None |}.

Definition setSelectedUser (state : State) (payload : option string) : State :=
  {| inboxList := inboxList state; selectedUser := payload;
     loading := loading state; hasMore := hasMore state;
     pageNumber := pageNumber state; searchQuery := searchQuery state;
     error := error state |}.

Definition setSearchQuery (state : State) (payload : string) : State :=
  {| inboxList := inboxList state; selectedUser := selectedUser state;
     loading := loading state; hasMore := hasMore state;
     pageNumber := 1; searchQuery := payload; error := error state |}.

Definition incrementPageNumber (state : State) : State :=
  {| inboxList := inboxList state; selectedUser := selectedUser state;
     loading := loading state; hasMore := hasMore state;
     pageNumber := pageNumber state + 1; searchQuery := searchQuery state;
     error := error state |}.

Definition resetPageNumber (state : State) : State :=
  {| inboxList := inboxList state; selectedUser := selectedUser state;
     loading := loading state; hasMore := hasMore state;
     pageNumber := 1; searchQuery := searchQuery state; error := error state |}.

Definition with_list (state : State) (l : list InboxEntry) : State :=
  {| inboxList := l; selectedUser := selectedUser state;
     loading := loading state; hasMore := hasMore state;
     pageNumber := pageNumber state; searchQuery := searchQuery state;
     error := error state |}.

(** [message.length > 30 ? `${message.substring(0, 30)}...` : message] *)
Definition preview (message : string) : string :=
  if (30 <? String.length message)%nat
  then String.substring 0 30 message ++ "..."
  else message.

Definition set_last_message (item : InboxEntry) (text : string) : InboxEntry :=
  {| id := id item; withUser := withUser item; with_user := with_user item;
     withUserImg := withUserImg item; lastMessage := lastMessage item;
     last_message := Some text; lastMessageDate := lastMessageDate item;
     unreadCount := unreadCount item |}.

Definition updateLastMessage (state : State) (username : option string)
    (message : string) : State :=
  let updatedList :=
    map (fun item =>
           if Js.strict_eq (with_user item) username
              || Js.strict_eq (withUser item) username
           then set_last_message item (preview message)
           else item)
        (inboxList state) in
  with_list state updatedList.

(** [updatedInboxIds.includes(inbox.id)] *)
Definition includes (ids : list Z) (x : Z) : bool :=
  existsb (Z.eqb x) ids.

Definition updateInboxList (state : State) (payload : list InboxEntry) : State :=
  let updatedInbox := payload in
  let updatedInboxIds := map id updatedInbox in
  let filteredList :=
    filter (fun inbox => negb (includes updatedInboxIds (id inbox)))
           (inboxList state) in
  with_list state (updatedInbox ++ filteredList)%list.

Definition fetchInboxList_pending (state : State) : State :=
  {| inboxList := inboxList state; selectedUser := selectedUser state;
     loading := true; hasMore := hasMore state;
     pageNumber := pageNumber state; searchQuery := searchQuery state;
     error := None |}.

Definition fetchInboxList_fulfilled (state : State) (data : InboxPage)
    (page : Z) : State :=
  if page =? 1 then
    {| inboxList := results data;
       selectedUser :=
         match results data with
         | first :: _ => Js.or_else (withUser first) (with_user first)
         | [] => selectedUser state
         end;
       loading := false;
       hasMore := Js.lt_num page (Js.num_or_else (numPages data) (num_pages data));
       pageNumber := pageNumber state; searchQuery := searchQuery state;
       error := error state |}
  else
    {| inboxList := (inboxList state ++ results data)%list;
       selectedUser := selectedUser state;
       loading := false;
       hasMore := Js.lt_num page (Js.num_or_else (numPages data) (num_pages data));
       pageNumber := pageNumber state; searchQuery := searchQuery state;
       error := error state |}.

Definition fetchInboxList_rejected (state : State) (payload : string)
  : State * list Toast :=
  ({| inboxList := inboxList state; selectedUser := selectedUser state;
      loading := false; hasMore := hasMore state;
      pageNumber := pageNumber state; searchQuery := searchQuery state;
      error := Some payload |},
   [ToastError "Failed to load conversations"]).

Definition updateUnreadCount_fulfilled (state : State) (payload : InboxEntry)
  : State :=
  let updatedInbox := payload in
  with_list state
    (map (fun inbox => if id inbox =? id updatedInbox then updatedInbox else inbox)
         (inboxList state)).

Definition updateUnreadCount_rejected (state : State) : State * list Toast :=
  (state, [ToastError "Failed to mark messages as read"]).

Definition createGroupMessages_fulfilled (state : State)
    (payload : list InboxEntry) : State * list Toast :=
  let updatedInbox := payload in
  let updatedInboxIds := map id updatedInbox in
  let filteredList :=
    filter (fun inbox => negb (includes updatedInboxIds (id inbox)))
           (inboxList state) in
  (with_list state (updatedInbox ++ filteredList)%list,
   [ToastSuccess "Messages sent successfully"]).

Definition createGroupMessages_rejected (state : State) : State * list Toast :=
  (state, [ToastError "Failed to send messages"]).

Inductive Action :=
| SetSelectedUser (payload : option string)
| SetSearchQuery (payload : string)
| IncrementPageNumber
| ResetPageNumber
| UpdateLastMessage (username : option string) (message : string)
| UpdateInboxList (payload : list InboxEntry)
| FetchInboxListPending
| FetchInboxListFulfilled (data : InboxPage) (page : Z)
| FetchInboxListRejected (payload : string)
| UpdateUnreadCountFulfilled (payload : InboxEntry)
| UpdateUnreadCountRejected
| CreateGroupMessagesFulfilled (payload : list InboxEntry)
| CreateGroupMessagesRejected.

Definition reducer (state : State) (action : Action) : State * list Toast :=
  match action with
  | SetSelectedUser payload => (setSelectedUser state payload, [])
  | SetSearchQuery payload => (setSearchQuery state payload, [])
  | IncrementPageNumber => (incrementPageNumber state, [])
  | ResetPageNumber => (resetPageNumber state, [])
  | UpdateLastMessage username message =>
      (updateLastMessage state username message, [])
  | UpdateInboxList payload => (updateInboxList state payload, [])
  | FetchInboxListPending => (fetchInboxList_pending state, [])
  | FetchInboxListFulfilled data page =>
      (fetchInboxList_fulfilled state data page, [])
  | FetchInboxListRejected payload => fetchInboxList_rejected state payload
  | UpdateUnreadCountFulfilled payload =>
      (updateUnreadCount_fulfilled state payload, [])
  | UpdateUnreadCountRejected => updateUnreadCount_rejected state
  | CreateGroupMessagesFulfilled payload =>
      createGroupMessages_fulfilled state payload
  | CreateGroupMessagesRejected => createGroupMessages_rejected state
  end.

(** The ids of the entries, in their order. *)
Definition ids (entries : list InboxEntry) : list Z := map id entries.

(** The entries that a merge of [updated] leaves where they were. *)
Definition untouched (updated entries : list InboxEntry) : list InboxEntry :=
  filter (fun inbox => negb (includes (ids updated) (id inbox))) entries.

(** The two ways in which updated entries are merged into the list: the
    [updateInboxList] action, and the fulfilled group send when
    [via_group_send] is set. *)
Definition mergeEntries (state : State)
    (merge : bool * list InboxEntry) : State :=
  let (via_group_send, updatedEntries) := merge in
  fst (reducer state
         (if via_group_send then CreateGroupMessagesFulfilled updatedEntries
          else UpdateInboxList updatedEntries)).

End InboxSlice.

(** ** store/slices/messagesSlice.js *)
Module MessagesSlice.

(** A message: [senderImg] as the gateway returns it, [sender_img] as the
    compose dialog writes it. *)
Record Message := {
  id : option Z;
  sender : string;
  senderImg : option string;
  sender_img : option string;
  created : string;
  message : string
}.

Record MessagesPage := {
  results : list Message;
  numPages : option Z;
  num_pages : option Z
}.

Record State := {
  messagesList : list Message;
  loading : bool;
  hasMore : bool;
  pageNumber : Z;
  error : option string;
  isReplying : bool;
  currentMessage : string
}.

Definition initialState : State :=
  {| messagesList := []; loading := false; hasMore := false; pageNumber := 1;
     error := None; isReplying := false; currentMessage := "" |}.

Definition incrementPageNumber (state : State) : State :=
  {| messagesList := messagesList state; loading := loading state;
     hasMore := hasMore state; pageNumber := pageNumber state + 1;
     error := error state; isReplying := isReplying state;
     currentMessage := currentMessage state |}.

Definition resetMessages (state : State) : State :=
  {| messagesList := []; loading := loading state; hasMore := false;
     pageNumber := 1; error := error state; isReplying := false;
     currentMessage := "" |}.

Definition setIsReplying (state : State) (payload : bool) : State :=
  {| messagesList := messagesList state; loading := loading state;
     hasMore := hasMore state; pageNumber := pageNumber state;
     error := error state; isReplying := payload;
     currentMessage := currentMessage state |}.

Definition setCurrentMessage (state : State) (payload : string) : State :=
  {| messagesList := messagesList state; loading := loading state;
     hasMore := hasMore state; pageNumber := pageNumber state;
     error := error state; isReplying := isReplying state;
     currentMessage := payload |}.

Definition addMessageToList (state : State) (payload : Message) : State :=
  {| messagesList := payload :: messagesList state; loading := loading state;
     hasMore := hasMore state; pageNumber := pageNumber state;
     error := error state; isReplying := isReplying state;
     currentMessage := currentMessage state |}.

Definition clearCurrentMessage (state : State) : State :=
  {| messagesList := messagesList state; loading := loading state;
     hasMore := hasMore state; pageNumber := pageNumber state;
     error := error state; isReplying := false; currentMessage := "" |}.

Definition fetchMessages_pending (state : State) : State :=
  {| messagesList := messagesList state; loading := true;
     hasMore := hasMore state; pageNumber := pageNumber state;
     error := None; isReplying := isReplying state;
     currentMessage := currentMessage state |}.

Definition fetchMessages_fulfilled (state : State) (data : MessagesPage)
    (page : Z) : State :=
  {| messagesList :=
       if page =? 1 then results data
       else (messagesList state ++ results data)%list;
     loading := false;
     hasMore := Js.lt_num page (Js.num_or_else (numPages data) (num_pages data));
     pageNumber := pageNumber state; error := error state;
     isReplying := isReplying state; currentMessage := currentMessage state |}.

Definition fetchMessages_rejected (state : State) (payload : string)
  : State * list Toast :=
  ({| messagesList := messagesList state; loading := false;
      hasMore := hasMore state; pageNumber := pageNumber state;
      error := Some payload; isReplying := isReplying state;
      currentMessage := currentMessage state |},
   [ToastError "Failed to load conversation"]).

Definition createMessage_fulfilled (state : State) (payload : Message)
  : State * list Toast :=
  ({| messagesList := payload :: messagesList state; loading := loading state;
      hasMore := hasMore state; pageNumber := pageNumber state;
      error := error state; isReplying := false; currentMessage := "" |},
   [ToastSuccess "Message sent successfully"]).

Definition createMessage_rejected (state : State) : State * list Toast :=
  (state, [ToastError "Failed to send message"]).

Inductive Action :=
| IncrementPageNumber
| ResetMessages
| SetIsReplying (payload : bool)
| SetCurrentMessage (payload : string)
| AddMessageToList (payload : Message)
| ClearCurrentMessage
| FetchMessagesPending
| FetchMessagesFulfilled (data : MessagesPage) (page : Z)
| FetchMessagesRejected (payload : string)
| CreateMessageFulfilled (payload : Message)
| CreateMessageRejected.

Definition reducer (state : State) (action : Action) : State * list Toast :=
  match action with
  | IncrementPageNumber => (incrementPageNumber state, [])
  | ResetMessages => (resetMessages state, [])
  | SetIsReplying payload => (setIsReplying state payload, [])
  | SetCurrentMessage payload => (setCurrentMessage state payload, [])
  | AddMessageToList payload => (addMessageToList state payload, [])
  | ClearCurrentMessage => (clearCurrentMessage state, [])
  | FetchMessagesPending => (fetchMessages_pending state, [])
  | FetchMessagesFulfilled data page =>
      (fetchMessages_fulfilled state data page, [])
  | FetchMessagesRejected payload => fetchMessages_rejected state payload
  | CreateMessageFulfilled payload => createMessage_fulfilled state payload
  | CreateMessageRejected => createMessage_rejected state
  end.

End MessagesSlice.

(** ** store/slices/userSlice.js *)
Module UserSlice.

Record CurrentUser := {
  username : string;
  name : string;
  profileName : string;
  hasProfileImage : bool;
  profileImage : string
}.

(** What the slice reads of the account data, through
    [profileData?.profileImage?.hasImage] and [...?.imageUrlFull]. *)
Record ProfileImage := {
  hasImage : option bool;
  imageUrlFull : option string
}.

Record ProfileData := { account_profileImage : option ProfileImage }.

(** An option of the recipient selector: [{ id, username }]. *)
Record UserOption := { option_id : string; option_username : string }.

Record State := {
  currentUser : CurrentUser;
  searchResults : list UserOption;
  loading : bool;
  error : option string
}.

Definition initialState : State :=
  {| currentUser :=
       {| username := ""; name := ""; profileName := "";
          hasProfileImage := false; profileImage := "" |};
     searchResults := []; loading := false; error := None |}.

Definition clearSearchResults (state : State) : State :=
  {| currentUser := currentUser state; searchResults := [];
     loading := loading state; error := error state |}.

(** The template literal of [fetchUserProfile.fulfilled]:
    [`${username[0]}${username.split(' ')[1]
        ? username.split(' ')[1][0] : username[1] || ''}`] *)
Definition initials (username : string) : string :=
  Js.interpolate (Js.char_at username 0)
  ++ Js.interpolate
       (if Js.truthy (nth_error (Js.split " " username) 1)
        then match nth_error (Js.split " " username) 1 with
             | Some token => Js.char_at token 0
             | None => None
             end
        else Js.or_else (Js.char_at username 1) (Some "")).

Definition fetchUserProfile_fulfilled (state : State)
    (profileData : option ProfileData) (user : string) : State :=
  let image :=
    match profileData with
    | Some data => account_profileImage data
    | None => None
    end in
  {| currentUser :=
       {| username := user;
          name := user;
          profileName := initials user;
          hasProfileImage :=
            match image with
            | Some img => match hasImage img with Some b => b | None => false end
            | None => false
            end;
          profileImage :=
            match image with
            | Some img =>
                match Js.or_else (imageUrlFull img) (Some "") with
                | Some url => url
                | None => ""
                end
            | None => ""
            end |};
     searchResults := searchResults state;
     loading := loading state; error := error state |}.

Definition fetchUserProfile_rejected (state : State) : State * list Toast :=
  (state, [ToastError "Failed to fetch profile image"]).

Definition searchUsers_pending (state : State) : State :=
  {| currentUser := currentUser state; searchResults := searchResults state;
     loading := true; error := error state |}.

(** [payload] lists the [username] of each result of the search. *)
Definition searchUsers_fulfilled (state : State) (payload : list string) : State :=
  let mappedResults :=
    map (fun user => {| option_id := user; option_username := user |}) payload in
  {| currentUser := currentUser state; searchResults := mappedResults;
     loading := false; error := error state |}.

Definition searchUsers_rejected (state : State) : State * list Toast :=
  ({| currentUser := currentUser state; searchResults := searchResults state;
      loading := false; error := error state |},
   [ToastError "Failed to search users"]).

Inductive Action :=
| ClearSearchResults
| FetchUserProfileFulfilled (profileData : option ProfileData) (user : string)
| FetchUserProfileRejected
| SearchUsersPending
| SearchUsersFulfilled (payload : list string)
| SearchUsersRejected.

Definition reducer (state : State) (action : Action) : State * list Toast :=
  match action with
  | ClearSearchResults => (clearSearchResults state, [])
  | FetchUserProfileFulfilled profileData user =>
      (fetchUserProfile_fulfilled state profileData user, [])
  | FetchUserProfileRejected => fetchUserProfile_rejected state
  | SearchUsersPending => (searchUsers_pending state, [])
  | SearchUsersFulfilled payload => (searchUsers_fulfilled state payload, [])
  | SearchUsersRejected => searchUsers_rejected state
  end.

End UserSlice.

(** ** store/index.js and the thunks of the three slices *)
Module Store.

Record RootState := {
  inbox : InboxSlice.State;
  messages : MessagesSlice.State;
  user : UserSlice.State
}.

Definition initialState : RootState :=
  {| inbox := InboxSlice.initialState;
     messages := MessagesSlice.initialState;
     user := UserSlice.initialState |}.

Inductive Action :=
| InboxAction (a : InboxSlice.Action)
| MessagesAction (a : MessagesSlice.Action)
| UserAction (a : UserSlice.Action).

(** A call of a gateway function, with its arguments. *)
Inductive ServiceCall :=
| CreateMessageCall (receiver : option string) (message : string)
| CreateGroupMessagesCall (receivers : list string) (message : string)
| UpdateUnreadCountCall (inboxId : Z)
| FetchInboxListCall (pageNumber : Z) (searchQuery : string)
| FetchMessagesCall (pageNumber : Z) (username : option string)
| FetchUsersCall (query : string)
| GetAccountCall (username : string).

(** What the application does to the outside, in the order it happens. *)
Inductive Effect :=
| Call (c : ServiceCall)
| Notify (t : Toast)
| HideModal.

Record World := { state : RootState; trace : list Effect }.

Definition emit (effects : list Effect) (w : World) : World :=
  {| state := state w; trace := (trace w ++ effects)%list |}.

(** The root reducer: each slice reduces its own actions; the
    notifications raised by the case reducers are recorded. *)
Definition dispatch (action : Action) (w : World) : World :=
  match action with
  | InboxAction a =>
      let (next, toasts) := InboxSlice.reducer (inbox (state w)) a in
      {| state := {| inbox := next; messages := messages (state w);
                     user := user (state w) |};
         trace := (trace w ++ map Notify toasts)%list |}
  | MessagesAction a =>
      let (next, toasts) := MessagesSlice.reducer (messages (state w)) a in
      {| state := {| inbox := inbox (state w); messages := next;
                     user := user (state w) |};
         trace := (trace w ++ map Notify toasts)%list |}
  | UserAction a =>
      let (next, toasts) := UserSlice.reducer (user (state w)) a in
      {| state := {| inbox := inbox (state w); messages := messages (state w);
                     user := next |};
         trace := (trace w ++ map Notify toasts)%list |}
  end.

(** The result of awaiting a gateway function: its value, or the
    [message] of what it threw. *)
Inductive Outcome (A : Type) :=
| Returned (a : A)
| Threw (message : string).
Arguments Returned {A} a.
Arguments Threw {A} message.

(** The gateway as the thunks see it: what each function answers. *)
Record Backend := {
  createMessageService :
    option string -> string -> Outcome MessagesSlice.Message;
  createGroupMessagesService :
    list string -> string -> Outcome (list InboxSlice.InboxEntry);
  updateUnreadCountService : Z -> Outcome InboxSlice.InboxEntry;
  fetchInboxListService : Z -> string -> Outcome InboxSlice.InboxPage;
  fetchSelectedInboxMessagesService :
    Z -> option string -> Outcome MessagesSlice.MessagesPage;
  fetchUsersService : string -> Outcome (list string);
  getAccountService : string -> Outcome (option UserSlice.ProfileData)
}.

(** A promise once settled. *)
Inductive Promise (A : Type) :=
| Resolved (a : A)
| Rejected (reason : string).
Arguments Resolved {A} a.
Arguments Rejected {A} reason.

(** [promise.then(onFulfilled)]: the callback runs when the promise is
    resolved, and only then. *)
Definition then_ {A S : Type} (promise : Promise A)
    (onFulfilled : A -> S -> S) (s : S) : S :=
  match promise with
  | Resolved a => onFulfilled a s
  | Rejected _ => s
  end.

(** The action a thunk settles with.  Every payload creator of the slices
    catches what its gateway call throws and returns
    [rejectWithValue(error.message)]: the promise that dispatching the
    thunk returns is resolved in both cases, with the fulfilled or with
    the rejected action. *)
Inductive Settled :=
| FulfilledAction
| RejectedAction (payload : string).

Section Thunks.
Variable api : Backend.

(** A thunk is run to its end when it is dispatched: the pending action
    where a slice handles it, then the gateway call, then the settling
    action. *)

Definition fetchInboxList (pageNumber : Z) (searchQuery : string) (w : World)
  : World * Promise Settled :=
  let w := dispatch (InboxAction InboxSlice.FetchInboxListPending) w in
  let w := emit [Call (FetchInboxListCall pageNumber searchQuery)] w in
  match fetchInboxListService api pageNumber searchQuery with
  | Returned data =>
      (dispatch (InboxAction (InboxSlice.FetchInboxListFulfilled data pageNumber)) w,
       Resolved FulfilledAction)
  | Threw message =>
      (dispatch (InboxAction (InboxSlice.FetchInboxListRejected message)) w,
       Resolved (RejectedAction message))
  end.

Definition updateUnreadCount (inboxId : Z) (w : World) : World * Promise Settled :=
  let w := emit [Call (UpdateUnreadCountCall inboxId)] w in
  match updateUnreadCountService api inboxId with
  | Returned updatedInbox =>
      (dispatch (InboxAction (InboxSlice.UpdateUnreadCountFulfilled updatedInbox)) w,
       Resolved FulfilledAction)
  | Threw message =>
      (dispatch (InboxAction InboxSlice.UpdateUnreadCountRejected) w,
       Resolved (RejectedAction message))
  end.

Definition createGroupMessages (receivers : list string) (message : string)
    (w : World) : World * Promise Settled :=
  let w := emit [Call (CreateGroupMessagesCall receivers message)] w in
  match createGroupMessagesService api receivers message with
  | Returned updatedInbox =>
      (dispatch (InboxAction (InboxSlice.CreateGroupMessagesFulfilled updatedInbox)) w,
       Resolved FulfilledAction)
  | Threw reason =>
      (dispatch (InboxAction InboxSlice.CreateGroupMessagesRejected) w,
       Resolved (RejectedAction reason))
  end.

Definition fetchMessages (pageNumber : Z) (username : option string) (w : World)
  : World * Promise Settled :=
  let w := dispatch (MessagesAction MessagesSlice.FetchMessagesPending) w in
  let w := emit [Call (FetchMessagesCall pageNumber username)] w in
  match fetchSelectedInboxMessagesService api pageNumber username with
  | Returned data =>
      (dispatch (MessagesAction (MessagesSlice.FetchMessagesFulfilled data pageNumber)) w,
       Resolved FulfilledAction)
  | Threw message =>
      (dispatch (MessagesAction (MessagesSlice.FetchMessagesRejected message)) w,
       Resolved (RejectedAction message))
  end.

Definition createMessage (receiver : option string) (message : string)
    (w : World) : World * Promise Settled :=
  let w := emit [Call (CreateMessageCall receiver message)] w in
  match createMessageService api receiver message with
  | Returned createdMessage =>
      (dispatch (MessagesAction (MessagesSlice.CreateMessageFulfilled createdMessage)) w,
       Resolved FulfilledAction)
  | Threw reason =>
      (dispatch (MessagesAction MessagesSlice.CreateMessageRejected) w,
       Resolved (RejectedAction reason))
  end.

(** [authenticatedUser] is [getAuthenticatedUser()?.username]. *)
Definition fetchUserProfile (authenticatedUser : option string) (w : World)
  : World * Promise Settled :=
  match authenticatedUser with
  | Some username =>
      if Js.truthy (Some username) then
        let w := emit [Call (GetAccountCall username)] w in
        match getAccountService api username with
        | Returned profileData =>
            (dispatch (UserAction
                         (UserSlice.FetchUserProfileFulfilled profileData username)) w,
             Resolved FulfilledAction)
        | Threw message =>
            (dispatch (UserAction UserSlice.FetchUserProfileRejected) w,
             Resolved (RejectedAction message))
        end
      else (dispatch (UserAction UserSlice.FetchUserProfileRejected) w,
            Resolved (RejectedAction "No authenticated user"))
  | None =>
      (dispatch (UserAction UserSlice.FetchUserProfileRejected) w,
       Resolved (RejectedAction "No authenticated user"))
  end.

Definition searchUsers (query : string) (w : World) : World * Promise Settled :=
  let w := dispatch (UserAction UserSlice.SearchUsersPending) w in
  let w := emit [Call (FetchUsersCall query)] w in
  match fetchUsersService api query with
  | Returned users =>
      (dispatch (UserAction (UserSlice.SearchUsersFulfilled users)) w,
       Resolved FulfilledAction)
  | Threw message =>
      (dispatch (UserAction UserSlice.SearchUsersRejected) w,
       Resolved (RejectedAction message))
  end.

End Thunks.

(** The application before anything has happened. *)
Definition initialState_world : World :=
  {| state := initialState; trace := [] |}.

(** The gateway calls of a trace. *)
Definition calls (effects : list Effect) : list ServiceCall :=
  flat_map (fun e => match e with Call c => [c] | _ => [] end) effects.

Definition toasts (effects : list Effect) : list Toast :=
  flat_map (fun e => match e with Notify t => [t] | _ => [] end) effects.

End Store.

(** ** components/Conversation.jsx *)
Module Conversation.
Import Store.

Section Handlers.
Variable api : Backend.

(** [selectedUser] and [currentMessage] are the values of the render in
    which the handler was created. *)
Definition handleSendMessage (w : World) : World :=
  let selectedUser := InboxSlice.selectedUser (inbox (state w)) in
  let currentMessage := MessagesSlice.currentMessage (messages (state w)) in
  if Js.blank currentMessage then w
  else
    let (w', promise) := createMessage api selectedUser currentMessage w in
    then_ promise
      (fun _ =>
         dispatch (InboxAction
                     (InboxSlice.UpdateLastMessage selectedUser currentMessage)))
      w'.

Definition handleInputChange (text : string) (w : World) : World :=
  dispatch (MessagesAction (MessagesSlice.SetCurrentMessage text)) w.

Definition handleCancelReply (w : World) : World :=
  dispatch (MessagesAction MessagesSlice.ClearCurrentMessage) w.

Definition handleReplyClick (w : World) : World :=
  dispatch (MessagesAction (MessagesSlice.SetIsReplying true)) w.

End Handlers.
End Conversation.

(** ** components/newMessageModal.jsx *)
Module NewMessageModal.
Import Store.

(** The local state of the dialog. *)
Record Local := {
  groupMessage : string;
  selectedUsers : list UserSlice.UserOption
}.

Section Handlers.
Variable api : Backend.

Definition handleSearch (query : string) (w : World) : World :=
  if Js.truthy (Some query) then fst (searchUsers api query w) else w.

Definition handleSubmit (local : Local) (w : World) : Local * World :=
  let selectedUser := InboxSlice.selectedUser (inbox (state w)) in
  let currentUser := UserSlice.currentUser (user (state w)) in
  if Js.blank (groupMessage local)
     || (List.length (selectedUsers local) =? 0)%nat
  then (local, w)
  else
    let receivers := map UserSlice.option_id (selectedUsers local) in
    let (w', promise) :=
      createGroupMessages api receivers (groupMessage local) w in
    then_ promise
      (fun _ '(_, w1) =>
         let isConversationOpened :=
           existsb (fun u =>
                      Js.strict_eq (Some (UserSlice.option_username u))
                                   selectedUser)
                   (selectedUsers local) in
         let w2 :=
           if isConversationOpened then
             dispatch
               (MessagesAction
                  (MessagesSlice.AddMessageToList
                     {| MessagesSlice.id := None;
                        MessagesSlice.sender := UserSlice.username currentUser;
                        MessagesSlice.senderImg := None;
                        MessagesSlice.sender_img :=
                          Js.or_else (Some (UserSlice.profileImage currentUser))
                                     (Some "");
                        MessagesSlice.created := "now";
                        MessagesSlice.message := groupMessage local |}))
               w1
           else w1 in
         let w3 := dispatch (UserAction UserSlice.ClearSearchResults) w2 in
         ({| groupMessage := ""; selectedUsers := [] |}, emit [HideModal] w3))
      (local, w').

End Handlers.
End NewMessageModal.

(** ** components/Inbox.jsx: the effects on the search text and the page *)
Module Inbox.
Import Store.

(** The component between two events: the store, and the debounce timer
    when one is pending, with the milliseconds left and the query that its
    callback has captured. *)
Record View := {
  world : World;
  debounce : option (nat * string)
}.

Section Effects.
Variable api : Backend.

Definition on_world (f : World -> World) (v : View) : View :=
  {| world := f (world v); debounce := debounce v |}.

(** [clearTimeout(delayDebounceFetch)], the cleanup of the search effect;
    the cleanup of a run that set no timer does nothing. *)
Definition cleanup (v : View) : View :=
  {| world := world v; debounce := None |}.

(** The effect on [searchQuery], run after its cleanup. *)
Definition searchEffect (v : View) : View :=
  let searchQuery := InboxSlice.searchQuery (inbox (state (world v))) in
  let pageNumber := InboxSlice.pageNumber (inbox (state (world v))) in
  if negb (String.eqb searchQuery "") then
    {| world := world v; debounce := Some (500%nat, searchQuery) |}
  else if String.eqb searchQuery "" && (pageNumber =? 1) then
    on_world (fun w => fst (fetchInboxList api 1 "" w)) v
  else v.

(** The effect on [pageNumber]. *)
Definition paginationEffect (v : View) : View :=
  let searchQuery := InboxSlice.searchQuery (inbox (state (world v))) in
  let pageNumber := InboxSlice.pageNumber (inbox (state (world v))) in
  if 1 <? pageNumber then
    on_world (fun w => fst (fetchInboxList api pageNumber searchQuery w)) v
  else v.

(** The render that follows a change of the store: each effect runs again
    when one of the store fields it depends on differs from the render
    before, the search effect after the cleanup of its last run. *)
Definition rerender (before : InboxSlice.State) (v : View) : View :=
  let now := inbox (state (world v)) in
  let v :=
    if String.eqb (InboxSlice.searchQuery before) (InboxSlice.searchQuery now)
    then v else searchEffect (cleanup v) in
  if InboxSlice.pageNumber before =? InboxSlice.pageNumber now
  then v else paginationEffect v.

(** The first render: the initial fetch, then both effects. *)
Definition mount (w : World) : View :=
  let v := {| world := fst (fetchInboxList api 1 "" w); debounce := None |} in
  paginationEffect (searchEffect v).

Definition handleSearchChange (text : string) (v : View) : View :=
  let before := inbox (state (world v)) in
  rerender before
    (on_world (dispatch (InboxAction (InboxSlice.SetSearchQuery text))) v).

Definition handleClearSearch (v : View) : View :=
  handleSearchChange "" v.

(** The callback of the debounce timer. *)
Definition debounceFetch (searchQuery : string) (v : View) : View :=
  let before := inbox (state (world v)) in
  let v := on_world (dispatch (InboxAction InboxSlice.ResetPageNumber)) v in
  let v := on_world (fun w => fst (fetchInboxList api 1 searchQuery w)) v in
  rerender before v.

(** [ms] milliseconds pass with no other event. *)
Definition elapse (ms : nat) (v : View) : View :=
  match debounce v with
  | Some (remaining, searchQuery) =>
      if (remaining <=? ms)%nat
      then debounceFetch searchQuery
             {| world := world v; debounce := None |}
      else {| world := world v; debounce := Some ((remaining - ms)%nat, searchQuery) |}
  | None => v
  end.

Definition handleInboxClick (username : option string) (v : View) : View :=
  let v := on_world (dispatch (InboxAction (InboxSlice.SetSelectedUser username))) v in
  on_world (dispatch (MessagesAction MessagesSlice.ResetMessages)) v.

End Effects.
End Inbox.

(** ** Sample data: two conversations, a gateway that answers and one
    that is out of reach *)
Module Samples.
Import Utils Store.

Definition entry (n : Z) (peer : string) (last : string) : InboxSlice.InboxEntry :=
  {| InboxSlice.id := n;
     InboxSlice.withUser := Some peer;
     InboxSlice.with_user := None;
     InboxSlice.withUserImg := None;
     InboxSlice.lastMessage := Some last;
     InboxSlice.last_message := None;
     InboxSlice.lastMessageDate := Some "2024-05-01";
     InboxSlice.unreadCount := 0 |}.

Definition bob : InboxSlice.InboxEntry := entry 1 "bob" "see you".
Definition carol : InboxSlice.InboxEntry := entry 2 "carol" "thanks".

Definition page (entries : list InboxSlice.InboxEntry) : InboxSlice.InboxPage :=
  {| InboxSlice.results := entries;
     InboxSlice.numPages := Some 1;
     InboxSlice.num_pages := None |}.

Definition sent (text : string) : MessagesSlice.Message :=
  {| MessagesSlice.id := Some 7;
     MessagesSlice.sender := "ada";
     MessagesSlice.senderImg := None;
     MessagesSlice.sender_img := None;
     MessagesSlice.created := "2024-05-02";
     MessagesSlice.message := text |}.

(** Every call is answered. *)
Definition online : Backend :=
  {| createMessageService := fun _ text => Returned (sent text);
     createGroupMessagesService := fun _ text => Returned [entry 1 "bob" text];
     updateUnreadCountService := fun _ => Returned bob;
     fetchInboxListService := fun _ _ => Returned (page [bob; carol]);
     fetchSelectedInboxMessagesService :=
       fun _ _ =>
         Returned {| MessagesSlice.results := [sent "see you"];
                     MessagesSlice.numPages := Some 1;
                     MessagesSlice.num_pages := None |};
     fetchUsersService := fun _ => Returned ["bob"; "carol"];
     getAccountService := fun _ => Returned None |}.

(** Every call is answered; there is no conversation. *)
Definition deserted : Backend :=
  {| createMessageService := createMessageService online;
     createGroupMessagesService := createGroupMessagesService online;
     updateUnreadCountService := updateUnreadCountService online;
     fetchInboxListService := fun _ _ => Returned (page []);
     fetchSelectedInboxMessagesService := fetchSelectedInboxMessagesService online;
     fetchUsersService := fun _ => Returned [];
     getAccountService := getAccountService online |}.

(** Every call fails. *)
Definition offline : Backend :=
  {| createMessageService := fun _ _ => Threw "Network Error";
     createGroupMessagesService := fun _ _ => Threw "Network Error";
     updateUnreadCountService := fun _ => Threw "Network Error";
     fetchInboxListService := fun _ _ => Threw "Network Error";
     fetchSelectedInboxMessagesService := fun _ _ => Threw "Network Error";
     fetchUsersService := fun _ => Threw "Network Error";
     getAccountService := fun _ => Threw "Network Error" |}.

(** The store of the user ada, with the conversations of bob and carol
    loaded, the conversation with [peer] open and [draft] typed. *)
Definition chatting (peer : string) (draft : string) : World :=
  {| state :=
       {| inbox :=
            {| InboxSlice.inboxList := [bob; carol];
               InboxSlice.selectedUser := Some peer;
               InboxSlice.loading := false;
               InboxSlice.hasMore := false;
               InboxSlice.pageNumber := 1;
               InboxSlice.searchQuery := "";
               InboxSlice.error := None |};
          messages :=
            {| MessagesSlice.messagesList := [];
               MessagesSlice.loading := false;
               MessagesSlice.hasMore := false;
               MessagesSlice.pageNumber := 1;
               MessagesSlice.error := None;
               MessagesSlice.isReplying := true;
               MessagesSlice.currentMessage := draft |};
          user :=
            {| UserSlice.currentUser :=
                 {| UserSlice.username := "ada";
                    UserSlice.name := "ada";
                    UserSlice.profileName := "ad";
                    UserSlice.hasProfileImage := false;
                    UserSlice.profileImage := "" |};
               UserSlice.searchResults := [];
               UserSlice.loading := false;
               UserSlice.error := None |} |};
     trace := [] |}.

(** The compose dialog filled in: [text] for bob and carol. *)
Definition to_bob_and_carol (text : string) : NewMessageModal.Local :=
  {| NewMessageModal.groupMessage := text;
     NewMessageModal.selectedUsers :=
       [ {| UserSlice.option_id := "bob"; UserSlice.option_username := "bob" |};
         {| UserSlice.option_id := "carol"; UserSlice.option_username := "carol" |} ] |}.

(** The HTTP client of a server that refuses every call with a
    structured body. *)
Definition refused : Service.HttpError :=
  {| Service.message := "Request failed with status code 403";
     Service.response :=
       Some (VObj [("error_code", VStr "not_allowed");
                   ("developer_message", VStr "forbidden")]) |}.

Definition refusing : Service.HttpClient := fun _ => inr refused.

End Samples.

(** ** The initials drawn in place of a picture *)
Module Avatars.

(** [s.toUpperCase()] on ASCII text. *)
Definition toUpperCase (s : string) : string :=
  string_of_list_ascii (map Utils.to_upper (list_ascii_of_string s)).

(** [a + b] where each operand is a one-character string or [undefined]:
    the concatenation, an [undefined] operand being printed as
    "undefined"; [undefined + undefined] is NaN, which is no string
    ([None]). *)
Definition plus (a b : option string) : option string :=
  match a, b with
  | None, None => None
  | _, _ => Some (Js.interpolate a ++ Js.interpolate b)
  end.

(** components/Inbox.jsx, [getInitials].  [None] is the TypeError of
    calling [toUpperCase] on NaN. *)
Definition getInitials (name : string) : option string :=
  let parts := Js.split " " name in
  if (2 <=? List.length parts)%nat then
    option_map toUpperCase
      (plus (Js.char_at (nth 0 parts "") 0) (Js.char_at (nth 1 parts "") 0))
  else
    option_map toUpperCase
      (plus (Js.char_at name 0)
            (Js.or_else (Js.char_at name 1) (Js.char_at name 0))).

(** components/Conversation.jsx, the [profileName] of a message row:
    [`${sender[0]}${sender.split(' ')[1]
        ? sender.split(' ')[1][0] : sender[1]}`] *)
Definition messageInitials (sender : string) : string :=
  Js.interpolate (Js.char_at sender 0)
  ++ Js.interpolate
       (if Js.truthy (nth_error (Js.split " " sender) 1)
        then match nth_error (Js.split " " sender) 1 with
             | Some token => Js.char_at token 0
             | None => None
             end
        else Js.char_at sender 1).

(** No space in the text. *)
Fixpoint spaceless (s : string) : bool :=
  match s with
  | EmptyString => true
  | String c rest => negb (Ascii.eqb c " ") && spaceless rest
  end.

End Avatars.

(** ** index.jsx of the messenger: the drawer around the inbox *)
Module MessengerContent.

(** The inbox between two events, and the [isDrawerShown] state that the
    parent hands down with its setter. *)
Record Shell := {
  view : Inbox.View;
  isDrawerShown : bool
}.

(** components/Inbox.jsx, [handleInboxClick]. *)
Definition handleInboxClick (username : option string) (s : Shell) : Shell :=
  {| view := Inbox.handleInboxClick username (view s);
     isDrawerShown := negb (isDrawerShown s) |}.

(** The click on the cog of the inbox header and on the overlay. *)
Definition toggleDrawer (s : Shell) : Shell :=
  {| view := view s; isDrawerShown := negb (isDrawerShown s) |}.

End MessengerContent.

(** ** More sample data *)
Module Fixtures.
Import Utils Store.

(** The inbox answers, every other call fails. *)
Definition inbox_only : Backend :=
  {| createMessageService := createMessageService Samples.offline;
     createGroupMessagesService := createGroupMessagesService Samples.offline;
     updateUnreadCountService := updateUnreadCountService Samples.offline;
     fetchInboxListService :=
       fun _ _ => Returned (Samples.page [Samples.entry 3 "dan" "hello"]);
     fetchSelectedInboxMessagesService :=
       fetchSelectedInboxMessagesService Samples.offline;
     fetchUsersService := fetchUsersService Samples.offline;
     getAccountService := getAccountService Samples.offline |}.

(** The account of ada as the server sends it. *)
Definition account : value :=
  VObj [("username", VStr "ada");
        ("profile_image",
          VObj [("has_image", VBool true);
                ("image_url_full", VStr "/media/ada.png")]);
        ("bio", VStr "");
        ("social_links", VNull)].

(** What the slice reads of that account. *)
Definition profile : UserSlice.ProfileData :=
  {| UserSlice.account_profileImage :=
       Some {| UserSlice.hasImage := Some true;
               UserSlice.imageUrlFull := Some "/media/ada.png" |} |}.

Definition with_profile : Backend :=
  {| createMessageService := createMessageService Samples.online;
     createGroupMessagesService := createGroupMessagesService Samples.online;
     updateUnreadCountService := updateUnreadCountService Samples.online;
     fetchInboxListService := fetchInboxListService Samples.online;
     fetchSelectedInboxMessagesService :=
       fetchSelectedInboxMessagesService Samples.online;
     fetchUsersService := fetchUsersService Samples.online;
     getAccountService := fun _ => Returned (Some profile) |}.

(** The inbox component mounted on the store of [Samples.chatting]. *)
Definition browsing : Inbox.View :=
  {| Inbox.world := Samples.chatting "carol" "draft"; Inbox.debounce := None |}.

End Fixtures.

(** ** Ordinary property names *)
Module PropertyNames.

(** A text of decimal digits only. *)
Fixpoint digits_only (s : string) : bool :=
  match s with
  | EmptyString => true
  | String c rest => Utils.is_digit c && digits_only rest
  end.

(** The property names for which [Utils.obj_set] is the assignment
    [result[key] = v] of JavaScript on a plain object, which then adds an
    own property after the ones it has: every name but ["__proto__"],
    whose assignment sets the prototype and adds no property, and the
    names made of digits, which are enumerated before the others. *)
Definition ordinary (key : string) : bool :=
  negb (String.eqb key "__proto__") && negb (digits_only key).

End PropertyNames.

(** * Properties *)

(** ** Inbox store: loading a page *)
Section InboxLoad.
Import Store.
Variable api : Backend.

(** A load that the gateway answers ends in the state of the fulfilled
    case reducer applied after the pending one; the other slices are left
    alone. *)
Lemma fetchInboxList_returned (page : Z) (query : string) (w : World)
    (data : InboxSlice.InboxPage) :
  fetchInboxListService api page query = Returned data ->
  state (fst (fetchInboxList api page query w))
  = {| inbox := InboxSlice.fetchInboxList_fulfilled
                  (InboxSlice.fetchInboxList_pending (inbox (state w))) data page;
       messages := messages (state w);
       user := user (state w) |}.
Proof.
  intros Hdata. unfold fetchInboxList. rewrite Hdata. reflexivity.
Qed.

(** Whatever the gateway answers, a load issues exactly one call. *)
Lemma fetchInboxList_calls (page : Z) (query : string) (w : World) :
  calls (trace (fst (fetchInboxList api page query w)))
  = (calls (trace w) ++ [FetchInboxListCall page query])%list.
Proof.
  unfold fetchInboxList, calls.
  destruct (fetchInboxListService api page query); simpl;
    rewrite !flat_map_app; simpl; rewrite !app_nil_r; reflexivity.
Qed.

(** C1, as amended: a successful load of page 1 replaces the list by the
    results and sets the selected user to the peer of the first result
    whenever there is a first result, whether or not a peer was selected
    before; the selection is kept only when the results are empty. *)
Theorem fetchInboxList_page1_selects_first (query : string) (w : World)
    (data : InboxSlice.InboxPage) :
  fetchInboxListService api 1 query = Returned data ->
  let next := inbox (state (fst (fetchInboxList api 1 query w))) in
  InboxSlice.inboxList next = InboxSlice.results data
  /\ (forall first rest,
        InboxSlice.results data = first :: rest ->
        InboxSlice.selectedUser next
        = Js.or_else (InboxSlice.withUser first) (InboxSlice.with_user first))
  /\ (InboxSlice.results data = [] ->
        InboxSlice.selectedUser next = InboxSlice.selectedUser (inbox (state w))).
Proof.
  intros Hdata next. subst next.
  rewrite (fetchInboxList_returned _ _ _ _ Hdata). simpl.
  unfold InboxSlice.fetchInboxList_fulfilled. simpl.
  repeat split.
  - intros first rest Hres. rewrite Hres. reflexivity.
  - intros Hres. rewrite Hres. reflexivity.
Qed.

(** C10: a successful load of page 1 whose results are empty leaves the
    selected user as it was, while the list becomes empty. *)
Theorem fetchInboxList_page1_empty_keeps_selection (query : string) (w : World)
    (data : InboxSlice.InboxPage) :
  fetchInboxListService api 1 query = Returned data ->
  InboxSlice.results data = [] ->
  let next := inbox (state (fst (fetchInboxList api 1 query w))) in
  InboxSlice.selectedUser next = InboxSlice.selectedUser (inbox (state w))
  /\ InboxSlice.inboxList next = [].
Proof.
  intros Hdata Hempty next. subst next.
  rewrite (fetchInboxList_returned _ _ _ _ Hdata). simpl.
  unfold InboxSlice.fetchInboxList_fulfilled. simpl.
  rewrite Hempty. split; reflexivity.
Qed.

End InboxLoad.

Section InboxLoadExamples.
Import Store.

Lemma fetchInboxList_page1_selects_first_witness :
  let w := Samples.chatting "carol" "" in
  let data := Samples.page [Samples.bob; Samples.carol] in
  let next := inbox (state (fst (fetchInboxList Samples.online 1 "" w))) in
  InboxSlice.inboxList next = InboxSlice.results data
  /\ (forall first rest,
        InboxSlice.results data = first :: rest ->
        InboxSlice.selectedUser next
        = Js.or_else (InboxSlice.withUser first) (InboxSlice.with_user first))
  /\ (InboxSlice.results data = [] ->
        InboxSlice.selectedUser next = InboxSlice.selectedUser (inbox (state w))).
Proof.
  exact (fetchInboxList_page1_selects_first Samples.online ""
           (Samples.chatting "carol" "")
           (Samples.page [Samples.bob; Samples.carol]) eq_refl).
Defined.

(** C1 as stated fails: with the conversation of carol selected, a
    successful load of page 1 that returns bob first selects bob. *)
Lemma fetchInboxList_page1_overrides_selection :
  let w := Samples.chatting "carol" "" in
  let next := inbox (state (fst (fetchInboxList Samples.online 1 "" w))) in
  fetchInboxListService Samples.online 1 ""
  = Returned (Samples.page [Samples.bob; Samples.carol])
  /\ InboxSlice.selectedUser (inbox (state w)) = Some "carol"
  /\ InboxSlice.selectedUser next = Some "bob"
  /\ InboxSlice.selectedUser next <> InboxSlice.selectedUser (inbox (state w)).
Proof.
  cbv zeta. repeat split; try reflexivity.
  vm_compute. discriminate.
Qed.

Lemma fetchInboxList_page1_empty_keeps_selection_witness :
  let w := Samples.chatting "carol" "" in
  let next := inbox (state (fst (fetchInboxList Samples.deserted 1 "" w))) in
  InboxSlice.selectedUser next = Some "carol"
  /\ InboxSlice.inboxList next = [].
Proof.
  exact (fetchInboxList_page1_empty_keeps_selection Samples.deserted ""
           (Samples.chatting "carol" "") (Samples.page []) eq_refl eq_refl).
Defined.

End InboxLoadExamples.

(** ** User store: the initials of the current user *)
Section Initials.
Import UserSlice.

(** C2 as stated fails: the slice neither changes the case of the
    letters nor repeats the first letter of a one-letter username. *)
Lemma initials_differ_from_upper_case :
  initials "ada lovelace" <> "AL"
  /\ initials "a" <> "AA"
  /\ initials "bob" <> "BO".
Proof.
  repeat split; vm_compute; discriminate.
Qed.

(** C2, as amended: the profile load derives [profileName] from a
    non-empty username as its first character, as it is written, followed
    by the first character of the second space-delimited token when that
    token is not empty, else by the second character of the username when
    there is one, else by nothing; so "ada lovelace" gives "al", "a"
    gives "a" and "bob" gives "bo". *)
Theorem initials_derivation :
  (forall (state : State) (profileData : option ProfileData)
          (c : ascii) (rest : string),
      profileName
        (currentUser
           (fetchUserProfile_fulfilled state profileData (String c rest)))
      = String c
          (match nth_error (Js.split " " (String c rest)) 1 with
           | Some (String t _) => String t ""
           | _ => match rest with
                  | String d _ => String d ""
                  | EmptyString => ""
                  end
           end))
  /\ initials "ada lovelace" = "al"
  /\ initials "a" = "a"
  /\ initials "bob" = "bo".
Proof.
  split; [|repeat split; reflexivity].
  intros state profileData c rest.
  change (profileName
            (currentUser
               (fetchUserProfile_fulfilled state profileData (String c rest))))
    with (initials (String c rest)).
  unfold initials.
  change (Js.char_at (String c rest) 0) with (Some (String c "")).
  change (Js.char_at (String c rest) 1) with (Js.char_at rest 0).
  generalize (nth_error (Js.split " " (String c rest)) 1) as second.
  intros [[|t tok]|]; destruct rest as [|d rest']; reflexivity.
Qed.

End Initials.

(** ** User store: searching for recipients *)
Section SearchUsers.
Import Store.

(** C9 as stated fails: the thunk has no guard of its own; dispatched
    with the empty query it calls the gateway and stores what comes
    back. *)
Lemma searchUsers_empty_query_calls_gateway :
  let w := Samples.chatting "bob" "" in
  let w' := fst (searchUsers Samples.online "" w) in
  calls (trace w) = []
  /\ calls (trace w') = [FetchUsersCall ""]
  /\ UserSlice.searchResults (user (state w)) = []
  /\ UserSlice.searchResults (user (state w'))
     = [ {| UserSlice.option_id := "bob"; UserSlice.option_username := "bob" |};
         {| UserSlice.option_id := "carol"; UserSlice.option_username := "carol" |} ].
Proof.
  cbv zeta. repeat split; reflexivity.
Qed.

(** C9, as amended: the guard is in the search handler of the compose
    dialog; called with the empty query it dispatches nothing, so that no
    call is issued and the store, search results included, stays as it
    is. *)
Theorem handleSearch_empty_query_does_nothing (api : Backend) (w : World) :
  NewMessageModal.handleSearch api "" w = w.
Proof.
  reflexivity.
Qed.

(** With any other query the handler dispatches the thunk, which issues
    one call. *)
Lemma handleSearch_query_calls_gateway (api : Backend) (c : ascii)
    (rest : string) (w : World) :
  calls (trace (NewMessageModal.handleSearch api (String c rest) w))
  = (calls (trace w) ++ [FetchUsersCall (String c rest)])%list.
Proof.
  unfold NewMessageModal.handleSearch. simpl Js.truthy. cbv iota.
  unfold searchUsers, calls.
  destruct (fetchUsersService api (String c rest)); simpl;
    rewrite !flat_map_app; simpl; rewrite !app_nil_r; reflexivity.
Qed.

End SearchUsers.

(** ** Sending a message: what follows the settled thunk *)
Section Sending.
Import Store.

(** The callback chained on the dispatched thunk runs whatever the
    outcome of the send: once the send has settled, the preview of the
    selected conversation is the draft. *)
Lemma handleSendMessage_patches_on_any_outcome (api : Backend) (w : World) :
  Js.blank (MessagesSlice.currentMessage (messages (state w))) = false ->
  inbox (state (Conversation.handleSendMessage api w))
  = InboxSlice.updateLastMessage (inbox (state w))
      (InboxSlice.selectedUser (inbox (state w)))
      (MessagesSlice.currentMessage (messages (state w))).
Proof.
  intros Hdraft. unfold Conversation.handleSendMessage. rewrite Hdraft.
  unfold createMessage.
  destruct (createMessageService api _ _); reflexivity.
Qed.

(** C3 on a failing send: ada has the conversation with bob open and has
    typed a draft; the gateway is out of reach.  The failure is reported
    and the draft is kept, but the preview of the conversation with bob
    now shows the message that was not sent. *)
Example handleSendMessage_failed_send_patches_preview :
  let w := Samples.chatting "bob" "on my way" in
  let w' := Conversation.handleSendMessage Samples.offline w in
  calls (trace w') = [CreateMessageCall (Some "bob") "on my way"]
  /\ toasts (trace w') = [ToastError "Failed to send message"]
  /\ MessagesSlice.currentMessage (messages (state w')) = "on my way"
  /\ MessagesSlice.messagesList (messages (state w')) = []
  /\ map InboxSlice.last_message (InboxSlice.inboxList (inbox (state w)))
     = [None; None]
  /\ map InboxSlice.last_message (InboxSlice.inboxList (inbox (state w')))
     = [Some "on my way"; None].
Proof.
  cbv zeta. repeat split; reflexivity.
Qed.

(** The same send, answered: the message heads the conversation, the
    draft is cleared and the preview is patched. *)
Example handleSendMessage_successful_send :
  let w := Samples.chatting "bob" "on my way" in
  let w' := Conversation.handleSendMessage Samples.online w in
  toasts (trace w') = [ToastSuccess "Message sent successfully"]
  /\ MessagesSlice.currentMessage (messages (state w')) = ""
  /\ MessagesSlice.messagesList (messages (state w')) = [Samples.sent "on my way"]
  /\ map InboxSlice.last_message (InboxSlice.inboxList (inbox (state w')))
     = [Some "on my way"; None].
Proof.
  cbv zeta. repeat split; reflexivity.
Qed.

(** The callback chained on the dispatched group send runs whatever the
    outcome: when the open conversation is with one of the recipients,
    the local message heads the conversation once the send has settled. *)
Lemma handleSubmit_prepends_on_any_outcome (api : Backend)
    (local : NewMessageModal.Local) (w : World) :
  Js.blank (NewMessageModal.groupMessage local) = false ->
  NewMessageModal.selectedUsers local <> [] ->
  existsb (fun u => Js.strict_eq (Some (UserSlice.option_username u))
                      (InboxSlice.selectedUser (inbox (state w))))
          (NewMessageModal.selectedUsers local) = true ->
  MessagesSlice.messagesList
    (messages (state (snd (NewMessageModal.handleSubmit api local w))))
  = {| MessagesSlice.id := None;
       MessagesSlice.sender :=
         UserSlice.username (UserSlice.currentUser (user (state w)));
       MessagesSlice.senderImg := None;
       MessagesSlice.sender_img :=
         Js.or_else
           (Some (UserSlice.profileImage (UserSlice.currentUser (user (state w)))))
           (Some "");
       MessagesSlice.created := "now";
       MessagesSlice.message := NewMessageModal.groupMessage local |}
    :: MessagesSlice.messagesList (messages (state w)).
Proof.
  intros Htext Husers Hopen. unfold NewMessageModal.handleSubmit.
  rewrite Htext.
  destruct (NewMessageModal.selectedUsers local) as [|u users] eqn:Hsel;
    [congruence|].
  cbn [List.length Nat.eqb orb]. unfold createGroupMessages.
  destruct (createGroupMessagesService api _ _); cbn [then_];
    rewrite Hopen; reflexivity.
Qed.

(** C4 on a failing group send: ada has the conversation with bob open
    and sends a message to bob and carol; the gateway is out of reach.
    The failure is reported, and yet the local message is put at the
    head of the open conversation, the form is reset and the dialog
    closed. *)
Example handleSubmit_failed_send_prepends_message :
  let w := Samples.chatting "bob" "" in
  let result :=
    NewMessageModal.handleSubmit Samples.offline
      (Samples.to_bob_and_carol "lunch at noon?") w in
  calls (trace (snd result))
  = [CreateGroupMessagesCall ["bob"; "carol"] "lunch at noon?"]
  /\ toasts (trace (snd result)) = [ToastError "Failed to send messages"]
  /\ MessagesSlice.messagesList (messages (state w)) = []
  /\ MessagesSlice.messagesList (messages (state (snd result)))
     = [ {| MessagesSlice.id := None;
            MessagesSlice.sender := "ada";
            MessagesSlice.senderImg := None;
            MessagesSlice.sender_img := Some "";
            MessagesSlice.created := "now";
            MessagesSlice.message := "lunch at noon?" |} ]
  /\ InboxSlice.inboxList (inbox (state (snd result)))
     = InboxSlice.inboxList (inbox (state w))
  /\ fst result
     = {| NewMessageModal.groupMessage := "";
          NewMessageModal.selectedUsers := [] |}
  /\ trace (snd result)
     = [ Call (CreateGroupMessagesCall ["bob"; "carol"] "lunch at noon?");
         Notify (ToastError "Failed to send messages");
         HideModal ].
Proof.
  cbv zeta. repeat split; reflexivity.
Qed.

End Sending.

(** ** Inbox store: merging updated entries *)
Section Merging.
Import InboxSlice.

Lemma includes_In (l : list Z) (x : Z) : includes l x = true <-> In x l.
Proof.
  unfold includes. rewrite existsb_exists. split.
  - intros [y [Hy Heq]]. apply Z.eqb_eq in Heq. now subst.
  - intros Hx. exists x. split; [assumption | apply Z.eqb_refl].
Qed.

Lemma untouched_ids_fresh (updated entries : list InboxEntry) (x : Z) :
  In x (ids (untouched updated entries)) -> ~ In x (ids updated).
Proof.
  unfold ids at 1. rewrite in_map_iff. intros [e [He Hin]] Hx.
  apply filter_In in Hin. destruct Hin as [_ Hkeep].
  apply includes_In in Hx. rewrite He, Hx in Hkeep. discriminate.
Qed.

Lemma filter_ids_NoDup (keep : InboxEntry -> bool) (entries : list InboxEntry) :
  NoDup (ids entries) -> NoDup (ids (filter keep entries)).
Proof.
  induction entries as [|e entries IH]; simpl; intros Hnd; [constructor|].
  inversion Hnd as [|x l Hnotin Hrest]; subst.
  destruct (keep e); simpl; [constructor|]; auto.
  intros Hin. apply Hnotin.
  unfold ids in *. rewrite in_map_iff in *.
  destruct Hin as [e' [He' Hin']]. exists e'. split; [assumption|].
  apply filter_In in Hin'. tauto.
Qed.

(** Both ways of merging build the same list: the updated entries, then
    the entries that the merge leaves where they were. *)
Lemma mergeEntries_list (state : State) (merge : bool * list InboxEntry) :
  inboxList (mergeEntries state merge)
  = (snd merge ++ untouched (snd merge) (inboxList state))%list.
Proof.
  destruct merge as [[|] updated]; reflexivity.
Qed.

Lemma mergeEntries_NoDup (state : State) (merge : bool * list InboxEntry) :
  NoDup (ids (inboxList state)) ->
  NoDup (ids (snd merge)) ->
  NoDup (ids (inboxList (mergeEntries state merge))).
Proof.
  intros Hstate Hmerge. rewrite mergeEntries_list.
  unfold ids. rewrite map_app. apply NoDup_app.
  - exact Hmerge.
  - apply filter_ids_NoDup. exact Hstate.
  - intros x Hx Hin. exact (untouched_ids_fresh _ _ _ Hin Hx).
Qed.

(** C5 as stated fails: a merge removes the old entries that carry an
    updated id, nothing more; two updated entries with one id both enter
    the list. *)
Lemma mergeEntries_keeps_duplicates_of_a_batch :
  let twice := [Samples.entry 1 "bob" "hello"; Samples.entry 1 "bob" "again"] in
  let final := fold_left mergeEntries [(false, twice)] initialState in
  ids (inboxList final) = [1; 1] /\ ~ NoDup (ids (inboxList final)).
Proof.
  cbv zeta. split; [reflexivity|].
  intros Hnd. vm_compute in Hnd. inversion Hnd as [|x l Hnotin _]; subst.
  apply Hnotin. left. reflexivity.
Qed.

(** C5, as amended: when the ids of the starting list are pairwise
    distinct and so are the ids within each merged batch, no two entries
    of the resulting list have the same id; and, with no condition, after
    a last merge the list is that batch in its order, followed by the
    entries of the list before whose id is not in the batch, in their
    order. *)
Theorem mergeEntries_sequence (state : State)
    (merges : list (bool * list InboxEntry)) :
  (NoDup (ids (inboxList state)) ->
   Forall (fun merge => NoDup (ids (snd merge))) merges ->
   NoDup (ids (inboxList (fold_left mergeEntries merges state))))
  /\ (forall earlier last,
        merges = (earlier ++ [last])%list ->
        inboxList (fold_left mergeEntries merges state)
        = (snd last
             ++ untouched (snd last)
                  (inboxList (fold_left mergeEntries earlier state)))%list).
Proof.
  split.
  - intros Hstate Hmerges. revert state Hstate.
    induction Hmerges as [|merge merges Hmerge _ IH]; intros state Hstate;
      simpl; [assumption|].
    apply IH. apply mergeEntries_NoDup; assumption.
  - intros earlier last ->. rewrite fold_left_app. simpl.
    apply mergeEntries_list.
Qed.

Lemma mergeEntries_sequence_witness :
  let merges := [(true, [Samples.entry 2 "carol" "hi"; Samples.entry 3 "dan" "hi"]);
                 (false, [Samples.entry 1 "bob" "yo"])] in
  let start := with_list initialState [Samples.bob; Samples.carol] in
  NoDup (ids (inboxList (fold_left mergeEntries merges start)))
  /\ (forall earlier last,
        merges = (earlier ++ [last])%list ->
        inboxList (fold_left mergeEntries merges start)
        = (snd last
             ++ untouched (snd last)
                  (inboxList (fold_left mergeEntries earlier start)))%list).
Proof.
  destruct (mergeEntries_sequence
              (with_list initialState [Samples.bob; Samples.carol])
              [(true, [Samples.entry 2 "carol" "hi"; Samples.entry 3 "dan" "hi"]);
               (false, [Samples.entry 1 "bob" "yo"])]) as [Hdistinct Horder].
  split; [|exact Horder].
  apply Hdistinct.
  - repeat constructor; simpl; intuition discriminate.
  - repeat constructor; simpl; intuition discriminate.
Defined.

End Merging.

(** ** Key transform utility: a trip to the other casing and back *)
Section RoundTrip.
Import Utils.

(** Induction on values, with the hypothesis for every element of an
    array and every property value of an object. *)
Lemma value_induction (P : value -> Prop) :
  P VUndefined -> P VNull -> (forall b, P (VBool b)) ->
  (forall n, P (VNum n)) -> (forall s, P (VStr s)) ->
  (forall items, Forall P items -> P (VArr items)) ->
  (forall props, Forall (fun kv => P (snd kv)) props -> P (VObj props)) ->
  forall v, P v.
Proof.
  intros Hundef Hnull Hbool Hnum Hstr Harr Hobj.
  fix rec 1. intros [| |b|n|s|items|props].
  - exact Hundef.
  - exact Hnull.
  - apply Hbool.
  - apply Hnum.
  - apply Hstr.
  - apply Harr. induction items as [|x items IH]; constructor.
    + apply rec.
    + exact IH.
  - apply Hobj. induction props as [|kv props IH]; constructor.
    + apply rec.
    + exact IH.
Qed.

Lemma distinct_NoDup (keys : list string) :
  distinct keys = true -> NoDup keys.
Proof.
  induction keys as [|k keys IH]; simpl; intros H; [constructor|].
  apply andb_true_iff in H. destruct H as [Hfresh Hrest].
  constructor; [|auto].
  intros Hin. apply negb_true_iff in Hfresh.
  assert (existsb (String.eqb k) keys = true) as Hex.
  { apply existsb_exists. exists k. split; [assumption | apply String.eqb_refl]. }
  congruence.
Qed.

Lemma obj_set_fresh (result : list (string * value)) (key : string) (v : value) :
  ~ In key (map fst result) -> obj_set result key v = (result ++ [(key, v)])%list.
Proof.
  induction result as [|[k old] result IH]; simpl; intros Hfresh; [reflexivity|].
  destruct (String.eqb_spec k key) as [->|Hneq]; [tauto|].
  f_equal. apply IH. tauto.
Qed.

(** Setting properties whose names are new and pairwise distinct adds
    them in their order. *)
Lemma fold_obj_set_fresh (rename : string -> string) (convert : value -> value)
    (props result : list (string * value)) :
  NoDup (map fst result ++ map (fun kv => rename (fst kv)) props) ->
  fold_left (fun acc kv => obj_set acc (rename (fst kv)) (convert (snd kv)))
            props result
  = (result ++ map (fun kv => (rename (fst kv), convert (snd kv))) props)%list.
Proof.
  revert result.
  induction props as [|kv props IH]; intros result Hnd; simpl.
  - now rewrite app_nil_r.
  - simpl in Hnd. rewrite obj_set_fresh.
    + rewrite IH.
      * now rewrite <- app_assoc.
      * rewrite map_app. simpl. rewrite <- app_assoc. exact Hnd.
    + apply NoDup_remove_2 in Hnd. intros Hin. apply Hnd.
      apply in_or_app. now left.
Qed.

Variables inner outer : string -> string.

Lemma comes_back_keys (props : list (string * value)) :
  forallb (fun kv => comes_back inner outer (fst kv)) props = true ->
  map (fun kv => outer (inner (fst kv))) props = map fst props.
Proof.
  intros H. apply map_ext_in. intros kv Hin.
  rewrite forallb_forall in H. apply String.eqb_eq. exact (H kv Hin).
Qed.

Lemma modifyObjectKeys_round_trip (v : value) :
  well_formed v = true ->
  all_keys (comes_back inner outer) v = true ->
  modifyObjectKeys outer (modifyObjectKeys inner v) = v.
Proof.
  induction v as [| | | | |items IH|props IH] using value_induction;
    try reflexivity; intros Hwf Hkeys.
  - simpl in *. f_equal. rewrite map_map.
    rewrite <- (map_id items) at 2. apply map_ext_in. intros x Hx.
    rewrite Forall_forall in IH. rewrite forallb_forall in Hwf, Hkeys.
    auto.
  - simpl in Hwf, Hkeys.
    apply andb_true_iff in Hwf. destruct Hwf as [Hdistinct Hwf].
    apply distinct_NoDup in Hdistinct.
    rewrite forallb_forall in Hwf, Hkeys. rewrite Forall_forall in IH.
    assert (forallb (fun kv => comes_back inner outer (fst kv)) props = true) as Hback.
    { apply forallb_forall. intros kv Hin.
      specialize (Hkeys kv Hin). apply andb_true_iff in Hkeys. tauto. }
    assert (NoDup (map (fun kv => inner (fst kv)) props)) as Hinner.
    { apply (NoDup_map_inv outer). rewrite map_map.
      rewrite (comes_back_keys props Hback). exact Hdistinct. }
    simpl.
    rewrite (fold_obj_set_fresh inner (modifyObjectKeys inner) props [])
      by exact Hinner.
    simpl. rewrite fold_obj_set_fresh.
    + simpl. rewrite map_map. simpl. f_equal.
      rewrite <- (map_id props) at 2. apply map_ext_in. intros [k x] Hin.
      simpl. f_equal.
      * specialize (Hkeys _ Hin). simpl in Hkeys.
        apply andb_true_iff in Hkeys. apply String.eqb_eq. tauto.
      * apply (IH _ Hin).
        -- exact (Hwf _ Hin).
        -- specialize (Hkeys _ Hin). simpl in Hkeys.
           apply andb_true_iff in Hkeys. tauto.
    + simpl. rewrite map_map. simpl.
      rewrite (comes_back_keys props Hback). exact Hdistinct.
Qed.

End RoundTrip.

Section RoundTripCasing.
Import Utils.

(** C6 as stated fails: the body that the gateway itself sends to clear
    an unread count does not come back from the two transforms; its
    snake-case property name returns in camel case. *)
Lemma round_trip_renames_snake_case_key :
  snakeCaseObject (VObj [("unread_count", VNum 0)])
  = VObj [("unread_count", VNum 0)]
  /\ camelCaseObject (snakeCaseObject (VObj [("unread_count", VNum 0)]))
     = VObj [("unreadCount", VNum 0)]
  /\ camelCaseObject (snakeCaseObject (VObj [("unread_count", VNum 0)]))
     <> VObj [("unread_count", VNum 0)].
Proof.
  repeat split; try reflexivity. vm_compute. discriminate.
Qed.

(** Two property names that share their snake-case form collapse into
    one property, which keeps the later value. *)
Example round_trip_merges_colliding_keys :
  camelCaseObject
    (snakeCaseObject (VObj [("userId", VNum 1); ("user_id", VNum 2)]))
  = VObj [("userId", VNum 2)].
Proof.
  reflexivity.
Qed.

(** C6, as amended: a value whose property names, at every depth, each
    come back from snake case then camel case unchanged, is returned
    unchanged by [snakeCaseObject] followed by [camelCaseObject]: same
    property names in the same order, and every value that is not an
    object or an array untouched. *)
Theorem camelCaseObject_snakeCaseObject_round_trip (v : value) :
  well_formed v = true ->
  all_keys (comes_back snakeCase camelCase) v = true ->
  camelCaseObject (snakeCaseObject v) = v.
Proof.
  apply modifyObjectKeys_round_trip.
Qed.

Lemma camelCaseObject_snakeCaseObject_round_trip_witness :
  let v :=
    VObj [("results",
            VArr [VObj [("id", VNum 1); ("withUser", VStr "bob");
                        ("lastMessage", VStr "see_you there");
                        ("unreadCount", VNum 2)]]);
          ("numPages", VNum 1); ("next", VNull)] in
  camelCaseObject (snakeCaseObject v) = v.
Proof.
  apply camelCaseObject_snakeCaseObject_round_trip; reflexivity.
Defined.

End RoundTripCasing.

(** ** API gateway: what a failing call throws *)
Section GatewayFailure.
Import Utils Service.

(** The six operations that catch the failure of their call throw it with
    [processedData] when the body of the response is an object or an
    array, and as it is otherwise; reading the account catches nothing
    and throws every failure as it is. *)
Lemma run_failure (op : Operation) (error : HttpError) :
  run (fun _ => inr error) op
  = inr (match op with
         | GetAccountOp _ => Original error
         | _ => processAndThrowError error camelCaseObject
         end).
Proof.
  destruct op; reflexivity.
Qed.

Lemma processAndThrowError_structured (error : HttpError) (data : value) :
  response error = Some data ->
  is_object data = true ->
  processAndThrowError error camelCaseObject
  = Processed error (camelCaseObject data).
Proof.
  intros Hresponse Hobject. unfold processAndThrowError.
  now rewrite Hresponse, Hobject.
Qed.

Lemma processAndThrowError_other (error : HttpError) :
  match response error with
  | Some data => is_object data = false
  | None => True
  end ->
  processAndThrowError error camelCaseObject = Original error.
Proof.
  unfold processAndThrowError.
  destruct (response error) as [data|]; [|reflexivity].
  now intros ->.
Qed.

(** On a failure with a structured body, every operation but the reading
    of the account throws the error that carries the body in camel
    case. *)
Lemma run_failure_structured (op : Operation) (error : HttpError) (data : value) :
  response error = Some data ->
  is_object data = true ->
  (forall username, op <> GetAccountOp username) ->
  run (fun _ => inr error) op = inr (Processed error (camelCaseObject data)).
Proof.
  intros Hresponse Hobject Hop. rewrite run_failure.
  rewrite (processAndThrowError_structured error data Hresponse Hobject).
  destruct op; try reflexivity. now destruct (Hop username).
Qed.

(** C7 on the account operation: the server refuses the call with a
    structured body.  The search operation throws an error that carries
    the body in camel case as [processedData]; the account operation
    throws the failure as it is, with no [processedData]. *)
Example getAccountService_failure_is_not_processed :
  response Samples.refused
  = Some (VObj [("error_code", VStr "not_allowed");
                ("developer_message", VStr "forbidden")])
  /\ fetchUsersService Samples.refusing "ada"
     = inr (Processed Samples.refused
              (VObj [("errorCode", VStr "not_allowed");
                     ("developerMessage", VStr "forbidden")]))
  /\ getAccountService Samples.refusing "ada" = inr (Original Samples.refused).
Proof.
  repeat split; reflexivity.
Qed.

End GatewayFailure.

(** ** Inbox component: the debounced search *)
Section Debounce.
Import Store Inbox.
Variable api : Backend.

Lemma dispatch_setSearchQuery (text : string) (w : World) :
  dispatch (InboxAction (InboxSlice.SetSearchQuery text)) w
  = {| state := {| inbox := InboxSlice.setSearchQuery (inbox (state w)) text;
                   messages := messages (state w);
                   user := user (state w) |};
       trace := trace w |}.
Proof.
  unfold dispatch. simpl. now rewrite app_nil_r.
Qed.

(** Typing a text that differs from the query and is not empty arms the
    timer with that text and calls nothing. *)
Lemma handleSearchChange_arms_timer (text : string) (v : View) :
  text <> "" ->
  InboxSlice.searchQuery (inbox (state (world v))) <> text ->
  handleSearchChange api text v
  = {| world := dispatch (InboxAction (InboxSlice.SetSearchQuery text)) (world v);
       debounce := Some (500%nat, text) |}.
Proof.
  intros Hnonempty Hchange.
  unfold handleSearchChange, rerender, on_world. simpl world.
  rewrite dispatch_setSearchQuery. simpl.
  apply String.eqb_neq in Hchange. rewrite Hchange.
  unfold searchEffect, cleanup. simpl.
  apply String.eqb_neq in Hnonempty. rewrite Hnonempty. simpl.
  unfold paginationEffect. simpl.
  now destruct (InboxSlice.pageNumber (inbox (state (world v))) =? 1).
Qed.

(** Clearing a query that was not empty drops the timer and fetches the
    first page with the empty query at once. *)
Lemma handleSearchChange_clear (v : View) :
  InboxSlice.searchQuery (inbox (state (world v))) <> "" ->
  handleSearchChange api "" v
  = {| world :=
         fst (fetchInboxList api 1 ""
                (dispatch (InboxAction (InboxSlice.SetSearchQuery "")) (world v)));
       debounce := None |}.
Proof.
  intros Hquery.
  unfold handleSearchChange, rerender, on_world. simpl world.
  rewrite dispatch_setSearchQuery. simpl.
  apply String.eqb_neq in Hquery. rewrite Hquery.
  unfold searchEffect, cleanup, on_world. simpl.
  unfold paginationEffect, fetchInboxList. simpl.
  destruct (fetchInboxListService api 1 ""); simpl;
    now destruct (InboxSlice.pageNumber (inbox (state (world v))) =? 1).
Qed.

(** Time that ends before the deadline of the timer only shortens what
    is left of it. *)
Lemma elapse_before_deadline (ms : nat) (v : View) (remaining : nat)
    (text : string) :
  debounce v = Some (remaining, text) ->
  (ms < remaining)%nat ->
  elapse api ms v
  = {| world := world v; debounce := Some ((remaining - ms)%nat, text) |}.
Proof.
  intros Htimer Hms. unfold elapse. rewrite Htimer.
  apply Nat.leb_gt in Hms. now rewrite Hms.
Qed.

(** C8: from a query that differs from [text], typing the non-empty
    [text], letting less than the delay pass and clearing the query
    issues exactly one call, the fetch of page 1 with the empty query;
    no timer is left, so that no later call follows however long one
    waits. *)
Theorem search_cleared_within_delay_fetches_once (text : string) (ms : nat)
    (v : View) :
  text <> "" ->
  InboxSlice.searchQuery (inbox (state (world v))) <> text ->
  (ms < 500)%nat ->
  let v' := handleClearSearch api (elapse api ms (handleSearchChange api text v)) in
  calls (trace (world v'))
  = (calls (trace (world v)) ++ [FetchInboxListCall 1 ""])%list
  /\ debounce v' = None
  /\ forall later, elapse api later v' = v'.
Proof.
  intros Hnonempty Hchange Hms v'.
  assert (v' = {| world :=
                    fst (fetchInboxList api 1 ""
                           (dispatch (InboxAction (InboxSlice.SetSearchQuery ""))
                              (dispatch (InboxAction (InboxSlice.SetSearchQuery text))
                                 (world v))));
                  debounce := None |}) as ->.
  { subst v'.
    rewrite (handleSearchChange_arms_timer text v Hnonempty Hchange).
    erewrite elapse_before_deadline; [|reflexivity|exact Hms].
    unfold handleClearSearch. rewrite handleSearchChange_clear; [reflexivity|].
    cbn [world]. rewrite dispatch_setSearchQuery. exact Hnonempty. }
  cbn [world debounce]. rewrite fetchInboxList_calls.
  rewrite !dispatch_setSearchQuery. cbn [trace].
  repeat split.
Qed.

End Debounce.

Lemma search_cleared_within_delay_fetches_once_witness :
  let v := Inbox.mount Samples.online Store.initialState_world in
  let v' :=
    Inbox.handleClearSearch Samples.online
      (Inbox.elapse Samples.online 499
         (Inbox.handleSearchChange Samples.online "bo" v)) in
  Store.calls (Store.trace (Inbox.world v'))
  = (Store.calls (Store.trace (Inbox.world v))
       ++ [Store.FetchInboxListCall 1 ""])%list
  /\ Inbox.debounce v' = None
  /\ forall later, Inbox.elapse Samples.online later v' = v'.
Proof.
  apply search_cleared_within_delay_fetches_once.
  - discriminate.
  - simpl. discriminate.
  - lia.
Defined.

(** ** Inbox store: the preview, the unread count and later pages *)
Section InboxEntries.
Import InboxSlice.

Lemma substring_head (n : nat) (s : string) :
  (n <= String.length s)%nat ->
  exists tail,
    s = String.substring 0 n s ++ tail
    /\ String.length (String.substring 0 n s) = n.
Proof.
  revert s. induction n as [|n IH]; intros s Hn.
  - exists s. destruct s; split; reflexivity.
  - destruct s as [|c s]; simpl in Hn; [lia|].
    destruct (IH s) as [tail [Hs Hlen]]; [lia|].
    exists tail. simpl. split; [now f_equal | now f_equal].
Qed.

Lemma length_append (a b : string) :
  String.length (a ++ b) = (String.length a + String.length b)%nat.
Proof.
  induction a as [|c a IH]; simpl; [reflexivity | now rewrite IH].
Qed.

(** X1: a message of at most 30 characters is its own preview; of a longer
    one the preview is the first 30 characters followed by three dots,
    33 characters in all. *)
Theorem preview_shape (message : string) :
  ((String.length message <= 30)%nat /\ preview message = message)
  \/ ((30 < String.length message)%nat
      /\ String.length (preview message) = 33%nat
      /\ exists head tail,
           message = head ++ tail
           /\ String.length head = 30%nat
           /\ preview message = head ++ "...").
Proof.
  unfold preview.
  destruct (Nat.ltb_spec 30 (String.length message)) as [Hlong|Hshort].
  - right. split; [exact Hlong|].
    destruct (substring_head 30 message) as [tail [Hsplit Hlen]]; [lia|].
    split.
    + rewrite length_append, Hlen. reflexivity.
    + exists (String.substring 0 30 message), tail. auto.
  - left. split; [exact Hshort | reflexivity].
Qed.

Lemma set_last_message_matches (item : InboxEntry) (text : string)
    (username : option string) :
  Js.strict_eq (with_user (set_last_message item text)) username
  || Js.strict_eq (withUser (set_last_message item text)) username
  = Js.strict_eq (with_user item) username
    || Js.strict_eq (withUser item) username.
Proof.
  reflexivity.
Qed.

(** X2: patching the preview neither adds, removes nor reorders entries, and
    changes nothing of an entry but [last_message]: every other field of
    every entry stays as it is, [last_message] becomes the preview in the
    entries of the peer and stays as it is in the others, and every
    other field of the slice is kept. *)
Theorem updateLastMessage_frame (state : State) (username : option string)
    (message : string) :
  let next := updateLastMessage state username message in
  map id (inboxList next) = map id (inboxList state)
  /\ map withUser (inboxList next) = map withUser (inboxList state)
  /\ map with_user (inboxList next) = map with_user (inboxList state)
  /\ map withUserImg (inboxList next) = map withUserImg (inboxList state)
  /\ map lastMessage (inboxList next) = map lastMessage (inboxList state)
  /\ map lastMessageDate (inboxList next) = map lastMessageDate (inboxList state)
  /\ map unreadCount (inboxList next) = map unreadCount (inboxList state)
  /\ map last_message (inboxList next)
     = map (fun item =>
              if Js.strict_eq (with_user item) username
                 || Js.strict_eq (withUser item) username
              then Some (preview message)
              else last_message item)
           (inboxList state)
  /\ selectedUser next = selectedUser state
  /\ pageNumber next = pageNumber state
  /\ searchQuery next = searchQuery state
  /\ hasMore next = hasMore state
  /\ loading next = loading state
  /\ error next = error state.
Proof.
  cbv zeta. unfold updateLastMessage. simpl.
  rewrite !map_map.
  repeat split; apply map_ext; intros item;
    destruct (Js.strict_eq (with_user item) username
              || Js.strict_eq (withUser item) username); reflexivity.
Qed.

(** X3: of two patches for the same peer the later one wins: the result is
    that of the later patch alone. *)
Theorem updateLastMessage_last_wins (state : State) (username : option string)
    (first second : string) :
  updateLastMessage (updateLastMessage state username first) username second
  = updateLastMessage state username second.
Proof.
  unfold updateLastMessage, with_list. simpl. f_equal.
  rewrite map_map. apply map_ext. intros item.
  destruct (Js.strict_eq (with_user item) username
            || Js.strict_eq (withUser item) username) eqn:Hmatch.
  - rewrite set_last_message_matches, Hmatch. reflexivity.
  - rewrite Hmatch. reflexivity.
Qed.

(** X4: the confirmed entry takes the place of every entry with its id and
    of no other: the ids of the list are unchanged, and a confirmation
    for an id that the list does not hold changes nothing. *)
Theorem updateUnreadCount_fulfilled_in_place (state : State)
    (payload : InboxEntry) :
  let next := updateUnreadCount_fulfilled state payload in
  map id (inboxList next) = map id (inboxList state)
  /\ (~ In (id payload) (map id (inboxList state)) ->
      inboxList next = inboxList state)
  /\ (forall entry, In entry (inboxList next) ->
        entry = payload \/ (In entry (inboxList state) /\ id entry <> id payload)).
Proof.
  cbv zeta. unfold updateUnreadCount_fulfilled. simpl.
  induction (inboxList state) as [|e l [IHids [IHnone IHeach]]]; simpl.
  - repeat split; tauto.
  - destruct (Z.eqb_spec (id e) (id payload)) as [Heq|Hneq].
    + split; [now rewrite IHids, Heq|]. split.
      * intros Hnot. exfalso. apply Hnot. left. exact Heq.
      * intros entry [Hentry|Hin]; [now left|].
        destruct (IHeach entry Hin) as [?|[? ?]]; auto.
    + split; [now rewrite IHids|]. split.
      * intros Hnot. f_equal. apply IHnone. tauto.
      * intros entry [Hentry|Hin].
        -- right. subst entry. auto.
        -- destruct (IHeach entry Hin) as [?|[? ?]]; auto.
Qed.

Lemma updateUnreadCount_fulfilled_in_place_witness :
  let state := with_list initialState [Samples.bob; Samples.carol] in
  let payload := Samples.entry 9 "dan" "hello" in
  inboxList (updateUnreadCount_fulfilled state payload) = inboxList state.
Proof.
  apply (updateUnreadCount_fulfilled_in_place
           (with_list initialState [Samples.bob; Samples.carol])
           (Samples.entry 9 "dan" "hello")).
  simpl. intuition discriminate.
Defined.

End InboxEntries.

(** ** Inbox store: later pages and failed loads *)
Section InboxLoadOutcomes.
Import Store.
Variable api : Backend.

Lemma fetchInboxList_threw (page : Z) (query : string) (w : World)
    (message : string) :
  fetchInboxListService api page query = Threw message ->
  fst (fetchInboxList api page query w)
  = {| state :=
         {| inbox :=
              fst (InboxSlice.fetchInboxList_rejected
                     (InboxSlice.fetchInboxList_pending (inbox (state w))) message);
            messages := messages (state w);
            user := user (state w) |};
       trace :=
         (trace w ++ [Call (FetchInboxListCall page query);
                      Notify (ToastError "Failed to load conversations")])%list |}.
Proof.
  intros Hthrew. unfold fetchInboxList. rewrite Hthrew.
  unfold dispatch, emit. simpl.
  rewrite app_nil_r, <- app_assoc. reflexivity.
Qed.

(** X5: a successful load of a page other than the first appends the results
    to the list and keeps the selected user, even when there are
    results; page number and query are not touched and the loading flag
    is cleared. *)
Theorem fetchInboxList_later_page_appends (page : Z) (query : string)
    (w : World) (data : InboxSlice.InboxPage) :
  fetchInboxListService api page query = Returned data ->
  page <> 1 ->
  let before := inbox (state w) in
  let next := inbox (state (fst (fetchInboxList api page query w))) in
  InboxSlice.inboxList next
  = (InboxSlice.inboxList before ++ InboxSlice.results data)%list
  /\ InboxSlice.selectedUser next = InboxSlice.selectedUser before
  /\ InboxSlice.pageNumber next = InboxSlice.pageNumber before
  /\ InboxSlice.searchQuery next = InboxSlice.searchQuery before
  /\ InboxSlice.loading next = false.
Proof.
  intros Hdata Hpage before next. subst before next.
  rewrite (fetchInboxList_returned api _ _ _ _ Hdata). simpl.
  unfold InboxSlice.fetchInboxList_fulfilled.
  apply Z.eqb_neq in Hpage. rewrite Hpage. simpl. repeat split.
Qed.

(** X6: a load that fails keeps the list, the selected user, the page
    cursor and the query; it clears the loading flag, records the
    message of the failure and raises one notification, after its one
    call. *)
Theorem fetchInboxList_failure_keeps_list (page : Z) (query : string)
    (w : World) (message : string) :
  fetchInboxListService api page query = Threw message ->
  let before := inbox (state w) in
  let after := fst (fetchInboxList api page query w) in
  InboxSlice.inboxList (inbox (state after)) = InboxSlice.inboxList before
  /\ InboxSlice.selectedUser (inbox (state after)) = InboxSlice.selectedUser before
  /\ InboxSlice.hasMore (inbox (state after)) = InboxSlice.hasMore before
  /\ InboxSlice.pageNumber (inbox (state after)) = InboxSlice.pageNumber before
  /\ InboxSlice.searchQuery (inbox (state after)) = InboxSlice.searchQuery before
  /\ InboxSlice.loading (inbox (state after)) = false
  /\ InboxSlice.error (inbox (state after)) = Some message
  /\ trace after
     = (trace w ++ [Call (FetchInboxListCall page query);
                    Notify (ToastError "Failed to load conversations")])%list.
Proof.
  intros Hthrew before after. subst before after.
  rewrite (fetchInboxList_threw _ _ _ _ Hthrew). simpl. repeat split.
Qed.

End InboxLoadOutcomes.

Lemma fetchInboxList_later_page_appends_witness :
  let w := Samples.chatting "carol" "" in
  let next :=
    Store.inbox (Store.state (fst (Store.fetchInboxList Fixtures.inbox_only 2 "" w))) in
  InboxSlice.inboxList next
  = [Samples.bob; Samples.carol; Samples.entry 3 "dan" "hello"]
  /\ InboxSlice.selectedUser next = Some "carol"
  /\ InboxSlice.pageNumber next = 1
  /\ InboxSlice.searchQuery next = ""
  /\ InboxSlice.loading next = false.
Proof.
  apply (fetchInboxList_later_page_appends Fixtures.inbox_only 2 ""
           (Samples.chatting "carol" "")
           (Samples.page [Samples.entry 3 "dan" "hello"]) eq_refl).
  discriminate.
Defined.

Lemma fetchInboxList_failure_keeps_list_witness :
  let w := Samples.chatting "carol" "" in
  let after := fst (Store.fetchInboxList Samples.offline 1 "bo" w) in
  InboxSlice.inboxList (Store.inbox (Store.state after))
  = [Samples.bob; Samples.carol]
  /\ InboxSlice.selectedUser (Store.inbox (Store.state after)) = Some "carol"
  /\ InboxSlice.hasMore (Store.inbox (Store.state after)) = false
  /\ InboxSlice.pageNumber (Store.inbox (Store.state after)) = 1
  /\ InboxSlice.searchQuery (Store.inbox (Store.state after)) = ""
  /\ InboxSlice.loading (Store.inbox (Store.state after)) = false
  /\ InboxSlice.error (Store.inbox (Store.state after)) = Some "Network Error"
  /\ Store.trace after
     = [Store.Call (Store.FetchInboxListCall 1 "bo");
        Store.Notify (ToastError "Failed to load conversations")].
Proof.
  exact (fetchInboxList_failure_keeps_list Samples.offline 1 "bo"
           (Samples.chatting "carol" "") "Network Error" eq_refl).
Defined.

(** ** Inbox store: what a merge keeps *)
Section MergingMore.
Import InboxSlice.

(** X7: a merge loses no conversation and invents none: an id is in the
    list after the merge exactly when it is in the batch or was in the
    list before. *)
Theorem mergeEntries_ids (state : State) (merge : bool * list InboxEntry)
    (x : Z) :
  In x (ids (inboxList (mergeEntries state merge)))
  <-> In x (ids (snd merge)) \/ In x (ids (inboxList state)).
Proof.
  rewrite mergeEntries_list. unfold ids. rewrite map_app, in_app_iff.
  unfold untouched. rewrite !in_map_iff. split.
  - intros [Hbatch|[e [He Hin]]]; [now left|]. right.
    apply filter_In in Hin. exists e. tauto.
  - intros [Hbatch|[e [He Hin]]]; [now left|].
    destruct (includes (map id (snd merge)) x) eqn:Hinc.
    + left. apply in_map_iff. now apply includes_In.
    + right. exists e. split; [assumption|].
      apply filter_In. split; [assumption|].
      unfold ids. now rewrite He, Hinc.
Qed.

Lemma untouched_of_batch (batch : list InboxEntry) : untouched batch batch = [].
Proof.
  unfold untouched.
  assert (forall l, (forall e, In e l -> In (id e) (ids batch)) ->
                    filter (fun inbox => negb (includes (ids batch) (id inbox))) l = [])
    as Hall.
  { induction l as [|e l IH]; intros Hin; simpl; [reflexivity|].
    assert (includes (ids batch) (id e) = true) as ->.
    { apply includes_In. apply Hin. now left. }
    simpl. apply IH. intros e' He'. apply Hin. now right. }
  apply Hall. intros e He. unfold ids. now apply in_map.
Qed.

Lemma untouched_twice (batch entries : list InboxEntry) :
  untouched batch (untouched batch entries) = untouched batch entries.
Proof.
  unfold untouched. induction entries as [|e l IH]; simpl; [reflexivity|].
  destruct (includes (ids batch) (id e)) eqn:Hinc; simpl; [exact IH|].
  rewrite Hinc. simpl. now rewrite IH.
Qed.

Lemma mergeEntries_state (state : State) (merge : bool * list InboxEntry) :
  mergeEntries state merge
  = with_list state (snd merge ++ untouched (snd merge) (inboxList state))%list.
Proof.
  destruct merge as [[|] batch]; reflexivity.
Qed.

(** X8: merging the same batch a second time changes nothing. *)
Theorem mergeEntries_twice (state : State) (merge : bool * list InboxEntry) :
  mergeEntries (mergeEntries state merge) merge = mergeEntries state merge.
Proof.
  rewrite !mergeEntries_state. unfold with_list. simpl. f_equal.
  unfold untouched at 1. rewrite filter_app.
  change (filter (fun inbox => negb (includes (ids (snd merge)) (id inbox)))
                 (snd merge))
    with (untouched (snd merge) (snd merge)).
  change (filter (fun inbox => negb (includes (ids (snd merge)) (id inbox)))
                 (untouched (snd merge) (inboxList state)))
    with (untouched (snd merge) (untouched (snd merge) (inboxList state))).
  now rewrite untouched_of_batch, untouched_twice.
Qed.

End MergingMore.

(** ** Messages store: loading and sending *)
Section MessagesOutcomes.
Import Store.
Variable api : Backend.

(** X9: loading a page of the conversation, whatever the outcome, leaves the
    draft, the replying flag and the page number as they are, touches
    neither the inbox nor the user slice, ends with the loading flag
    cleared and issues one call. *)
Theorem fetchMessages_frame (page : Z) (username : option string) (w : World) :
  let after := fst (fetchMessages api page username w) in
  MessagesSlice.currentMessage (messages (state after))
  = MessagesSlice.currentMessage (messages (state w))
  /\ MessagesSlice.isReplying (messages (state after))
     = MessagesSlice.isReplying (messages (state w))
  /\ MessagesSlice.pageNumber (messages (state after))
     = MessagesSlice.pageNumber (messages (state w))
  /\ MessagesSlice.loading (messages (state after)) = false
  /\ inbox (state after) = inbox (state w)
  /\ user (state after) = user (state w)
  /\ calls (trace after)
     = (calls (trace w) ++ [FetchMessagesCall page username])%list.
Proof.
  cbv zeta. unfold fetchMessages, calls.
  destruct (fetchSelectedInboxMessagesService api page username); simpl;
    rewrite !flat_map_app; simpl; rewrite !app_nil_r; repeat split.
Qed.

(** A successful load of page 1 replaces the messages by the results; of
    any other page it appends them; a failed load keeps the messages
    and records the message of the failure. *)
Theorem fetchMessages_list (page : Z) (username : option string) (w : World) :
  let before := messages (state w) in
  let after := messages (state (fst (fetchMessages api page username w))) in
  match fetchSelectedInboxMessagesService api page username with
  | Returned data =>
      MessagesSlice.messagesList after
      = (if page =? 1 then MessagesSlice.results data
         else MessagesSlice.messagesList before ++ MessagesSlice.results data)%list
      /\ MessagesSlice.error after = None
  | Threw message =>
      MessagesSlice.messagesList after = MessagesSlice.messagesList before
      /\ MessagesSlice.hasMore after = MessagesSlice.hasMore before
      /\ MessagesSlice.error after = Some message
  end.
Proof.
  cbv zeta. unfold fetchMessages.
  destruct (fetchSelectedInboxMessagesService api page username); simpl;
    repeat split.
Qed.

(** X10: a send that the gateway answers puts the created message at the head
    of the conversation and clears the draft and the replying flag; a
    send that fails leaves the whole store as it was.  Either way there
    is one call, followed by one notification. *)
Theorem createMessage_outcomes (receiver : option string) (text : string)
    (w : World) :
  let after := fst (createMessage api receiver text w) in
  match createMessageService api receiver text with
  | Returned created =>
      MessagesSlice.messagesList (messages (state after))
      = created :: MessagesSlice.messagesList (messages (state w))
      /\ MessagesSlice.currentMessage (messages (state after)) = ""
      /\ MessagesSlice.isReplying (messages (state after)) = false
      /\ inbox (state after) = inbox (state w)
      /\ trace after
         = (trace w ++ [Call (CreateMessageCall receiver text);
                        Notify (ToastSuccess "Message sent successfully")])%list
  | Threw _ =>
      state after = state w
      /\ trace after
         = (trace w ++ [Call (CreateMessageCall receiver text);
                        Notify (ToastError "Failed to send message")])%list
  end.
Proof.
  cbv zeta. unfold createMessage.
  destruct (createMessageService api receiver text); simpl;
    rewrite <- app_assoc; repeat split.
  destruct w as [[i m u] t]. destruct m. reflexivity.
Qed.

(** X11: the send handler issues no call for a draft that is blank once
    trimmed and exactly one call, for the selected user and the draft as
    typed, for any other draft. *)
Theorem handleSendMessage_calls (w : World) :
  calls (trace (Conversation.handleSendMessage api w))
  = (calls (trace w)
       ++ if Js.blank (MessagesSlice.currentMessage (messages (state w)))
          then []
          else [CreateMessageCall
                  (InboxSlice.selectedUser (inbox (state w)))
                  (MessagesSlice.currentMessage (messages (state w)))])%list.
Proof.
  unfold Conversation.handleSendMessage.
  destruct (Js.blank (MessagesSlice.currentMessage (messages (state w)))).
  - now rewrite app_nil_r.
  - unfold createMessage, calls.
    destruct (createMessageService api _ _); simpl;
      rewrite !flat_map_app; simpl; rewrite !app_nil_r; reflexivity.
Qed.

End MessagesOutcomes.

(** ** Compose dialog: submitting *)
Section Submitting.
Import Store NewMessageModal.
Variable api : Backend.

(** Whether the form is sent: a message that is not blank, and at least
    one recipient. *)
Lemma handleSubmit_guard (local : Local) (w : World) :
  Js.blank (groupMessage local) || (List.length (selectedUsers local) =? 0)%nat
  = true ->
  handleSubmit api local w = (local, w).
Proof.
  intros Hguard. unfold handleSubmit. now rewrite Hguard.
Qed.

(** X12: the form issues no call when the message is blank once trimmed or no
    recipient is chosen, and otherwise exactly one call, with the ids of
    the recipients in their order and the message as typed. *)
Theorem handleSubmit_calls (local : Local) (w : World) :
  calls (trace (snd (handleSubmit api local w)))
  = (calls (trace w)
       ++ if Js.blank (groupMessage local)
             || (List.length (selectedUsers local) =? 0)%nat
          then []
          else [CreateGroupMessagesCall
                  (map UserSlice.option_id (selectedUsers local))
                  (groupMessage local)])%list.
Proof.
  unfold handleSubmit.
  destruct (Js.blank (groupMessage local)
            || (List.length (selectedUsers local) =? 0)%nat).
  - simpl. now rewrite app_nil_r.
  - unfold createGroupMessages, calls.
    destruct (createGroupMessagesService api _ _); cbn [then_];
      destruct (existsb _ (selectedUsers local)); simpl;
      rewrite !flat_map_app; simpl; rewrite !app_nil_r; reflexivity.
Qed.

(** X13: once the form is sent, whatever the outcome of the send: the message
    and the recipients of the form are cleared, so are the search
    results, and closing the dialog is the last thing done. *)
Theorem handleSubmit_resets_form (local : Local) (w : World) :
  Js.blank (groupMessage local) = false ->
  selectedUsers local <> [] ->
  let result := handleSubmit api local w in
  fst result = {| groupMessage := ""; selectedUsers := [] |}
  /\ UserSlice.searchResults (user (state (snd result))) = []
  /\ exists earlier, trace (snd result) = (earlier ++ [HideModal])%list.
Proof.
  intros Htext Husers result. subst result. unfold handleSubmit.
  rewrite Htext.
  destruct (selectedUsers local) as [|u users] eqn:Hsel; [congruence|].
  cbn [List.length Nat.eqb orb]. unfold createGroupMessages.
  destruct (createGroupMessagesService api _ _); cbn [then_];
    destruct (existsb _ (u :: users)); simpl; repeat split; eauto.
Qed.

(** X14: when the open conversation is with none of the recipients, sending
    the form leaves the messages store as it was. *)
Theorem handleSubmit_other_conversation (local : Local) (w : World) :
  existsb (fun u => Js.strict_eq (Some (UserSlice.option_username u))
                      (InboxSlice.selectedUser (inbox (state w))))
          (selectedUsers local) = false ->
  messages (state (snd (handleSubmit api local w))) = messages (state w).
Proof.
  intros Hclosed. unfold handleSubmit.
  destruct (Js.blank (groupMessage local)
            || (List.length (selectedUsers local) =? 0)%nat); [reflexivity|].
  unfold createGroupMessages.
  destruct (createGroupMessagesService api _ _); cbn [then_];
    rewrite Hclosed; reflexivity.
Qed.

(** X15: a group send that the gateway answers puts the returned entries at
    the head of the inbox, in their order, before the entries that they
    do not replace; the selected user is kept. *)
Theorem handleSubmit_success_merges (local : Local) (w : World)
    (updated : list InboxSlice.InboxEntry) :
  Js.blank (groupMessage local) = false ->
  selectedUsers local <> [] ->
  createGroupMessagesService api
    (map UserSlice.option_id (selectedUsers local)) (groupMessage local)
  = Returned updated ->
  let after := inbox (state (snd (handleSubmit api local w))) in
  InboxSlice.inboxList after
  = (updated
       ++ InboxSlice.untouched updated (InboxSlice.inboxList (inbox (state w))))%list
  /\ InboxSlice.selectedUser after = InboxSlice.selectedUser (inbox (state w)).
Proof.
  intros Htext Husers Hsent after. subst after. unfold handleSubmit.
  rewrite Htext.
  destruct (selectedUsers local) as [|u users] eqn:Hsel; [congruence|].
  cbn [List.length Nat.eqb orb]. unfold createGroupMessages.
  rewrite Hsent. cbn [then_].
  destruct (existsb _ (u :: users)); split; reflexivity.
Qed.

End Submitting.

Lemma handleSubmit_resets_form_witness :
  let result :=
    NewMessageModal.handleSubmit Samples.online
      (Samples.to_bob_and_carol "lunch?") (Samples.chatting "carol" "") in
  fst result
  = {| NewMessageModal.groupMessage := ""; NewMessageModal.selectedUsers := [] |}
  /\ UserSlice.searchResults (Store.user (Store.state (snd result))) = []
  /\ exists earlier,
       Store.trace (snd result) = (earlier ++ [Store.HideModal])%list.
Proof.
  apply handleSubmit_resets_form; [reflexivity | discriminate].
Defined.

Lemma handleSubmit_other_conversation_witness :
  Store.messages
    (Store.state
       (snd (NewMessageModal.handleSubmit Samples.online
               (Samples.to_bob_and_carol "lunch?") (Samples.chatting "dan" ""))))
  = Store.messages (Store.state (Samples.chatting "dan" "")).
Proof.
  apply handleSubmit_other_conversation. reflexivity.
Defined.

Lemma handleSubmit_success_merges_witness :
  let w := Samples.chatting "carol" "" in
  let after :=
    Store.inbox
      (Store.state
         (snd (NewMessageModal.handleSubmit Samples.online
                 (Samples.to_bob_and_carol "lunch?") w))) in
  InboxSlice.inboxList after
  = ([Samples.entry 1 "bob" "lunch?"]
       ++ InboxSlice.untouched [Samples.entry 1 "bob" "lunch?"]
            (InboxSlice.inboxList (Store.inbox (Store.state w))))%list
  /\ InboxSlice.selectedUser after = Some "carol".
Proof.
  apply (handleSubmit_success_merges Samples.online
           (Samples.to_bob_and_carol "lunch?") (Samples.chatting "carol" "")
           [Samples.entry 1 "bob" "lunch?"]);
    [reflexivity | discriminate | reflexivity].
Defined.

(** ** User store: the profile and the search *)
Section UserOutcomes.
Import Store.
Variable api : Backend.

(** X16: with no authenticated user, or one whose username is empty, the
    profile load contacts no gateway: the store is unchanged, the thunk
    settles as rejected with "No authenticated user" and the one effect
    is the notification of the failure. *)
Theorem fetchUserProfile_unauthenticated (authenticatedUser : option string)
    (w : World) :
  Js.truthy authenticatedUser = false ->
  fetchUserProfile api authenticatedUser w
  = ({| state := state w;
        trace := (trace w ++ [Notify (ToastError "Failed to fetch profile image")])%list |},
     Resolved (RejectedAction "No authenticated user")).
Proof.
  intros Hnone. unfold fetchUserProfile.
  destruct authenticatedUser as [username|].
  - rewrite Hnone. destruct w as [[i m u] t]. destruct u. reflexivity.
  - destruct w as [[i m u] t]. destruct u. reflexivity.
Qed.

(** X17: a profile load that the gateway answers stores the username as
    username and as name; the picture is marked present only if the
    account says so, and its address is the empty string when the
    account gives none.  The search results are not touched. *)
Theorem fetchUserProfile_success (username : string) (w : World)
    (profileData : option UserSlice.ProfileData) :
  Js.truthy (Some username) = true ->
  getAccountService api username = Returned profileData ->
  let after := user (state (fst (fetchUserProfile api (Some username) w))) in
  let image :=
    match profileData with
    | Some data => UserSlice.account_profileImage data
    | None => None
    end in
  UserSlice.username (UserSlice.currentUser after) = username
  /\ UserSlice.name (UserSlice.currentUser after) = username
  /\ (UserSlice.hasProfileImage (UserSlice.currentUser after) = true
      <-> exists img, image = Some img /\ UserSlice.hasImage img = Some true)
  /\ ((forall img, image = Some img ->
                   Js.truthy (UserSlice.imageUrlFull img) = false) ->
      UserSlice.profileImage (UserSlice.currentUser after) = "")
  /\ UserSlice.searchResults after = UserSlice.searchResults (user (state w)).
Proof.
  intros Hname Hdata after image. subst after image.
  unfold fetchUserProfile. rewrite Hname, Hdata. simpl.
  repeat split.
  - destruct profileData as [[[img|]]|]; simpl; try discriminate.
    destruct (UserSlice.hasImage img) as [[|]|] eqn:Himg; try discriminate.
    intros _. exists img. auto.
  - intros [img [Himage Hhas]].
    destruct profileData as [[[img'|]]|]; simpl in *; try discriminate.
    injection Himage as ->. now rewrite Hhas.
  - intros Hnone.
    destruct profileData as [[[img|]]|]; simpl in *; try reflexivity.
    specialize (Hnone img eq_refl). unfold Js.or_else. now rewrite Hnone.
Qed.

(** X18: a search that the gateway answers stores one option per result, in
    the order of the results, each with the username as its id; a search
    that fails keeps the options it had.  Either way the loading flag
    is cleared and the current user is untouched. *)
Theorem searchUsers_outcomes (query : string) (w : World) :
  let after := user (state (fst (searchUsers api query w))) in
  UserSlice.loading after = false
  /\ UserSlice.currentUser after = UserSlice.currentUser (user (state w))
  /\ match fetchUsersService api query with
     | Returned users =>
         map UserSlice.option_id (UserSlice.searchResults after) = users
         /\ map UserSlice.option_username (UserSlice.searchResults after) = users
     | Threw _ =>
         UserSlice.searchResults after = UserSlice.searchResults (user (state w))
     end.
Proof.
  cbv zeta. unfold searchUsers.
  destruct (fetchUsersService api query) as [users|message]; simpl;
    repeat split; rewrite map_map; simpl; apply map_id.
Qed.

End UserOutcomes.

Lemma fetchUserProfile_unauthenticated_witness :
  Store.fetchUserProfile Samples.online (Some "") (Samples.chatting "bob" "")
  = ({| Store.state := Store.state (Samples.chatting "bob" "");
        Store.trace :=
          (Store.trace (Samples.chatting "bob" "")
             ++ [Store.Notify (ToastError "Failed to fetch profile image")])%list |},
     Store.Resolved (Store.RejectedAction "No authenticated user")).
Proof.
  apply fetchUserProfile_unauthenticated. reflexivity.
Defined.

Lemma fetchUserProfile_success_witness :
  let after :=
    Store.user
      (Store.state
         (fst (Store.fetchUserProfile Fixtures.with_profile (Some "ada")
                 Store.initialState_world))) in
  UserSlice.hasProfileImage (UserSlice.currentUser after) = true
  /\ UserSlice.username (UserSlice.currentUser after) = "ada".
Proof.
  pose proof (fetchUserProfile_success Fixtures.with_profile "ada"
                Store.initialState_world (Some Fixtures.profile)
                eq_refl eq_refl) as [Huser [_ [Himage _]]].
  split; [|exact Huser].
  apply Himage. eexists. split; reflexivity.
Defined.

(** ** The initials of the current user, of a peer and of a sender *)
Section InitialsMore.
Import Avatars.

Lemma split_nonempty (sep : ascii) (s : string) :
  exists token tokens, Js.split sep s = token :: tokens.
Proof.
  destruct s as [|c rest]; simpl; [eauto|].
  destruct (Ascii.eqb c sep); [eauto|].
  destruct (Js.split sep rest); eauto.
Qed.

Lemma split_spaceless (s : string) :
  spaceless s = true -> Js.split " " s = [s].
Proof.
  induction s as [|c rest IH]; simpl; [reflexivity|].
  intros H. apply andb_true_iff in H. destruct H as [Hc Hrest].
  apply negb_true_iff in Hc. rewrite Hc, (IH Hrest). reflexivity.
Qed.

(** The first token of a text is empty exactly when the text is empty or
    begins with the separator. *)
Lemma split_first_empty (sep : ascii) (s : string) :
  (exists tokens, Js.split sep s = "" :: tokens)
  <-> s = "" \/ exists rest, s = String sep rest.
Proof.
  destruct s as [|c rest]; simpl.
  - split; eauto.
  - destruct (Ascii.eqb_spec c sep) as [->|Hneq].
    + split; eauto.
    + split.
      * intros [tokens H]. destruct (Js.split sep rest); discriminate.
      * intros [H|[rest' H]]; [discriminate|]. injection H as Hc _. congruence.
Qed.

(** X19: the store's initials of a non-empty username have one character when
    the username has one, and two otherwise: the text "undefined" never
    shows. *)
Theorem initials_length (c : ascii) (rest : string) :
  String.length (UserSlice.initials (String c rest))
  = Nat.min 2 (String.length (String c rest)).
Proof.
  unfold UserSlice.initials. destruct rest as [|d rest'].
  - simpl. destruct (Ascii.eqb c " "); reflexivity.
  - change (Js.char_at (String c (String d rest')) 0) with (Some (String c "")).
    change (Js.char_at (String c (String d rest')) 1) with (Some (String d "")).
    generalize (nth_error (Js.split " " (String c (String d rest'))) 1) as second.
    intros [[|t tok]|]; reflexivity.
Qed.

(** X20: the initials of a message row are those of the store for a sender of
    two characters or more; for a sender of one character they are that
    character followed by the text "undefined". *)
Theorem messageInitials_cases :
  (forall c d rest,
      messageInitials (String c (String d rest))
      = UserSlice.initials (String c (String d rest)))
  /\ (forall c, messageInitials (String c "") = String c "undefined").
Proof.
  split.
  - intros c d rest. unfold messageInitials, UserSlice.initials.
    change (Js.char_at (String c (String d rest)) 1) with (Some (String d "")).
    reflexivity.
  - intros c. unfold messageInitials. simpl.
    destruct (Ascii.eqb c " "); reflexivity.
Qed.

(** X21: for a name without a space the initials of an inbox entry are its
    first two characters in upper case, the first one twice when there is
    no second; from two characters on they are the store's initials in
    upper case. *)
Theorem getInitials_spaceless (c : ascii) (rest : string) :
  spaceless (String c rest) = true ->
  getInitials (String c rest)
  = Some (toUpperCase
            (String c (String (match rest with
                               | String d _ => d
                               | EmptyString => c
                               end) "")))
  /\ (rest <> "" ->
      getInitials (String c rest)
      = Some (toUpperCase (UserSlice.initials (String c rest)))).
Proof.
  intros Hname. unfold getInitials, UserSlice.initials.
  rewrite (split_spaceless _ Hname). simpl.
  destruct rest as [|d rest']; simpl; split; try reflexivity.
  intros H. congruence.
Qed.

Lemma getInitials_spaceless_witness :
  getInitials "bob" = Some "BO"
  /\ ("ob" <> "" -> getInitials "bob" = Some (toUpperCase (UserSlice.initials "bob"))).
Proof.
  apply (getInitials_spaceless "b" "ob"). reflexivity.
Defined.

(** X22: the initials of an inbox entry cannot be computed (upper-casing NaN
    is a TypeError) exactly for the empty name, the name of one space and
    the names that begin with two spaces. *)
Theorem getInitials_fails_iff (name : string) :
  getInitials name = None
  <-> name = "" \/ name = " " \/ exists rest, name = String " " (String " " rest).
Proof.
  unfold getInitials. destruct name as [|c rest]; simpl.
  - split; auto.
  - destruct (Ascii.eqb_spec c " ") as [->|Hneq].
    + destruct (split_nonempty " " rest) as [token [tokens Hsplit]].
      rewrite Hsplit. simpl.
      assert (token = "" <-> rest = "" \/ exists r, rest = String " " r) as Hfirst.
      { rewrite <- split_first_empty. rewrite Hsplit. split.
        - intros ->. eauto.
        - intros [toks H]. now injection H. }
      destruct token as [|t token'].
      * simpl. split; [|reflexivity]. intros _.
        destruct (proj1 Hfirst eq_refl) as [->|[r ->]]; eauto.
      * simpl. split; [discriminate|].
        intros [H|[H|[r H]]]; try discriminate.
        -- injection H as Hrest.
           assert (String t token' = "") as Habs by (apply Hfirst; auto).
           discriminate.
        -- injection H as Hrest.
           assert (String t token' = "") as Habs by (apply Hfirst; eauto).
           discriminate.
    + destruct (Js.split " " rest) as [|token tokens]; simpl.
      * split; [discriminate|].
        intros [H|[H|[r H]]]; try discriminate; injection H as Hc; congruence.
      * destruct tokens; simpl;
          (split; [discriminate
                  |intros [H|[H|[r H]]]; try discriminate;
                   injection H as Hc; congruence]).
Qed.

End InitialsMore.

(** ** Key transform utility: what every result looks like *)
Section KeyTransform.
Import Utils.






(** X24: a value whose property names are ordinary and are left as they
    are by the casing function is returned unchanged. *)
Theorem modifyObjectKeys_fixed_keys (modify : string -> string) (v : value) :
  well_formed v = true ->
  all_keys PropertyNames.ordinary v = true ->
  all_keys (fun key => String.eqb (modify key) key) v = true ->
  modifyObjectKeys modify v = v.
Proof.
  intros Hwf _. revert Hwf.
  induction v as [| | | | |items IH|props IH] using value_induction;
    try reflexivity; intros Hwf Hkeys.
  - simpl in *. f_equal. rewrite <- (map_id items) at 2.
    apply map_ext_in. intros x Hx.
    rewrite Forall_forall in IH. rewrite forallb_forall in Hwf, Hkeys. auto.
  - simpl in Hwf, Hkeys.
    apply andb_true_iff in Hwf. destruct Hwf as [Hdistinct Hwf].
    apply distinct_NoDup in Hdistinct.
    rewrite forallb_forall in Hwf, Hkeys. rewrite Forall_forall in IH.
    assert (map (fun kv => modify (fst kv)) props = map fst props) as Hsame.
    { apply map_ext_in. intros kv Hin. specialize (Hkeys kv Hin).
      apply andb_true_iff in Hkeys. apply String.eqb_eq. tauto. }
    simpl. rewrite fold_obj_set_fresh.
    + simpl. f_equal. rewrite <- (map_id props) at 2.
      apply map_ext_in. intros [k x] Hin. simpl.
      specialize (Hkeys _ Hin). simpl in Hkeys.
      apply andb_true_iff in Hkeys. destruct Hkeys as [Hk Hx].
      apply String.eqb_eq in Hk. rewrite Hk. f_equal.
      apply (IH _ Hin); [exact (Hwf _ Hin) | exact Hx].
    + simpl. rewrite Hsame. exact Hdistinct.
Qed.

Lemma modifyObjectKeys_fixed_keys_witness :
  let v :=
    VObj [("results", VArr [VObj [("withUser", VStr "bob"); ("id", VNum 1)]]);
          ("numPages", VNum 3)] in
  camelCaseObject v = v.
Proof.
  apply (modifyObjectKeys_fixed_keys camelCase); reflexivity.
Defined.

End KeyTransform.

(** ** API gateway: the account and the unstructured failures *)
Section GatewayMore.
Import Utils Service.

Lemma prop_obj_set_same (props : list (string * value)) (key : string)
    (v : value) :
  prop key (VObj (obj_set props key v)) = v.
Proof.
  induction props as [|[k old] props IH]; simpl.
  - now rewrite String.eqb_refl.
  - destruct (String.eqb k key) eqn:Hk; simpl; rewrite Hk; [reflexivity|].
    exact IH.
Qed.

Lemma prop_obj_set_other (props : list (string * value)) (key other : string)
    (v : value) :
  String.eqb key other = false ->
  prop other (VObj (obj_set props key v)) = prop other (VObj props).
Proof.
  intros Hneq. induction props as [|[k old] props IH]; simpl.
  - now rewrite Hneq.
  - destruct (String.eqb k key) eqn:Hk; simpl.
    + apply String.eqb_eq in Hk. subst k. now rewrite Hneq.
    + destruct (String.eqb k other); [reflexivity | exact IH].
Qed.

Lemma camelCaseObject_nullish (data : value) :
  match camelCaseObject data with
  | VUndefined | VNull => data = VUndefined \/ data = VNull
  | _ => data <> VUndefined /\ data <> VNull
  end.
Proof.
  destruct data; simpl; auto; split; discriminate.
Qed.

(** X25: processing the account fails (a TypeError) exactly when the response
    has no data or [null] for data. *)
Theorem processAccountData_fails_iff (data : value) :
  processAccountData data = None <-> data = VUndefined \/ data = VNull.
Proof.
  unfold processAccountData. pose proof (camelCaseObject_nullish data) as H.
  destruct (camelCaseObject data); split; try discriminate; try tauto;
    intros [->| ->]; destruct H; congruence.
Qed.

(** X26: in a processed account the social links and the language
    proficiencies are always arrays, the profile image is never missing,
    and name, bio, country, level of education and year of birth are each
    either a truthy value or [null]. *)
Theorem processAccountData_defaults (data account : value) :
  processAccountData data = Some account ->
  is_array (prop "socialLinks" account) = true
  /\ is_array (prop "languageProficiencies" account) = true
  /\ falsy (prop "profileImage" account) = false
  /\ Forall (fun key => prop key account = VNull
                        \/ falsy (prop key account) = false)
            ["name"; "bio"; "country"; "levelOfEducation"; "yearOfBirth"].
Proof.
  unfold processAccountData.
  set (processed := camelCaseObject data).
  intros Hsome.
  assert (account
          = spread_with processed
              [ ("socialLinks",
                  if is_array (prop "socialLinks" processed)
                  then prop "socialLinks" processed else VArr []);
                ("languageProficiencies",
                  if is_array (prop "languageProficiencies" processed)
                  then prop "languageProficiencies" processed else VArr []);
                ("name", if falsy (prop "name" processed) then VNull
                         else prop "name" processed);
                ("bio", if falsy (prop "bio" processed) then VNull
                        else prop "bio" processed);
                ("country", if falsy (prop "country" processed) then VNull
                            else prop "country" processed);
                ("levelOfEducation",
                  if falsy (prop "levelOfEducation" processed) then VNull
                  else prop "levelOfEducation" processed);
                ("profileImage",
                  if falsy (prop "profileImage" processed) then VObj []
                  else prop "profileImage" processed);
                ("yearOfBirth",
                  if falsy (prop "yearOfBirth" processed) then VNull
                  else prop "yearOfBirth" processed) ]) as ->.
  { destruct processed; try discriminate; now injection Hsome. }
  clear Hsome. unfold spread_with. cbn [fold_left fst snd].
  repeat split.
  - rewrite !prop_obj_set_other by reflexivity. rewrite prop_obj_set_same.
    destruct (is_array (prop "socialLinks" processed)) eqn:H; auto.
  - rewrite !prop_obj_set_other by reflexivity. rewrite prop_obj_set_same.
    destruct (is_array (prop "languageProficiencies" processed)) eqn:H; auto.
  - rewrite !prop_obj_set_other by reflexivity. rewrite prop_obj_set_same.
    destruct (falsy (prop "profileImage" processed)) eqn:H; auto.
  - repeat apply Forall_cons; try apply Forall_nil;
      rewrite ?prop_obj_set_other by reflexivity; rewrite prop_obj_set_same;
      match goal with
      | |- context [falsy ?x] =>
          destruct (falsy x) eqn:H; [left; reflexivity | right; exact H]
      end.
Qed.

Lemma processAccountData_defaults_witness :
  exists account,
    processAccountData Fixtures.account = Some account
    /\ is_array (prop "socialLinks" account) = true
    /\ prop "bio" account = VNull
    /\ falsy (prop "profileImage" account) = false.
Proof.
  eexists. split; [reflexivity|].
  pose proof (processAccountData_defaults Fixtures.account _ eq_refl)
    as [Hlinks [_ [Himage _]]].
  split; [exact Hlinks|]. split; [reflexivity | exact Himage].
Defined.

(** X27: a failure whose response carries no data, or data that is neither an
    object nor an array, is thrown again as it is by every one of the
    seven operations. *)
Theorem run_failure_unstructured (op : Operation) (error : HttpError) :
  match response error with
  | Some data => is_object data = false
  | None => True
  end ->
  run (fun _ => inr error) op = inr (Original error).
Proof.
  intros Hbody. rewrite run_failure.
  rewrite (processAndThrowError_other error Hbody). now destruct op.
Qed.

Lemma run_failure_unstructured_witness :
  let timeout :=
    {| message := "timeout of 5000ms exceeded"; response := None |} in
  run (fun _ => inr timeout) (FetchInboxList 1 "") = inr (Original timeout).
Proof.
  apply run_failure_unstructured. exact I.
Defined.

End GatewayMore.

(** ** Inbox component: mounting, typing and selecting *)
Section InboxComponent.
Import Store Inbox.
Variable api : Backend.

Lemma fetchInboxList_keeps_cursor (page : Z) (query : string) (w : World) :
  InboxSlice.searchQuery (inbox (state (fst (fetchInboxList api page query w))))
  = InboxSlice.searchQuery (inbox (state w))
  /\ InboxSlice.pageNumber (inbox (state (fst (fetchInboxList api page query w))))
     = InboxSlice.pageNumber (inbox (state w)).
Proof.
  unfold fetchInboxList.
  destruct (fetchInboxListService api page query); simpl; [|auto].
  unfold InboxSlice.fetchInboxList_fulfilled.
  destruct (page =? 1); simpl; auto.
Qed.

(** X28: mounting the inbox on a store with the empty query and page 1 sends
    the fetch of page 1 with the empty query twice, once from the effect
    of the first render and once from the effect on the query, sets no
    timer and sends nothing else. *)
Theorem mount_fetches_twice (w : World) :
  InboxSlice.searchQuery (inbox (state w)) = "" ->
  InboxSlice.pageNumber (inbox (state w)) = 1 ->
  calls (trace (world (mount api w)))
  = (calls (trace w) ++ [FetchInboxListCall 1 ""; FetchInboxListCall 1 ""])%list
  /\ debounce (mount api w) = None.
Proof.
  intros Hquery Hpage. unfold mount.
  destruct (fetchInboxList_keeps_cursor 1 "" w) as [Hq1 Hp1].
  rewrite Hquery in Hq1. rewrite Hpage in Hp1.
  unfold searchEffect. cbn [world debounce]. rewrite Hq1, Hp1. simpl.
  unfold paginationEffect, on_world. cbn [world debounce].
  destruct (fetchInboxList_keeps_cursor 1 ""
              (fst (fetchInboxList api 1 "" w))) as [_ Hp2].
  rewrite Hp1 in Hp2. rewrite Hp2. simpl.
  rewrite !fetchInboxList_calls, <- app_assoc. auto.
Qed.

(** Time that reaches the deadline of the timer runs its callback: the
    page number is reset, page 1 is fetched with the query that the
    timer holds, and no timer is left. *)
Lemma elapse_at_deadline (ms : nat) (v : View) (remaining : nat)
    (text : string) :
  debounce v = Some (remaining, text) ->
  (remaining <= ms)%nat ->
  elapse api ms v
  = {| world :=
         fst (fetchInboxList api 1 text
                (dispatch (InboxAction InboxSlice.ResetPageNumber) (world v)));
       debounce := None |}.
Proof.
  intros Htimer Hms. unfold elapse. rewrite Htimer.
  apply Nat.leb_le in Hms. rewrite Hms.
  unfold debounceFetch, rerender, on_world. cbn [world debounce].
  unfold fetchInboxList.
  destruct (fetchInboxListService api 1 text); simpl;
    rewrite String.eqb_refl; unfold paginationEffect; simpl;
    now destruct (InboxSlice.pageNumber (inbox (state (world v))) =? 1).
Qed.

Lemma dispatch_resetPageNumber (w : World) :
  dispatch (InboxAction InboxSlice.ResetPageNumber) w
  = {| state := {| inbox := InboxSlice.resetPageNumber (inbox (state w));
                   messages := messages (state w);
                   user := user (state w) |};
       trace := trace w |}.
Proof.
  unfold dispatch. simpl. now rewrite app_nil_r.
Qed.

(** X29: only the latest text is fetched: when a second text is typed before
    the delay of the first has passed and the delay then passes, the one
    call sent is the fetch of page 1 with the second text; the store
    holds that text at page 1, no timer is left and waiting longer sends
    nothing more. *)
Theorem debounce_fetches_latest_only (first second : string)
    (between wait : nat) (v : View) :
  first <> "" ->
  second <> "" ->
  InboxSlice.searchQuery (inbox (state (world v))) <> first ->
  first <> second ->
  (between < 500)%nat ->
  (500 <= wait)%nat ->
  let v' :=
    elapse api wait
      (handleSearchChange api second
         (elapse api between (handleSearchChange api first v))) in
  calls (trace (world v'))
  = (calls (trace (world v)) ++ [FetchInboxListCall 1 second])%list
  /\ InboxSlice.searchQuery (inbox (state (world v'))) = second
  /\ InboxSlice.pageNumber (inbox (state (world v'))) = 1
  /\ debounce v' = None
  /\ forall later, elapse api later v' = v'.
Proof.
  intros Hfirst Hsecond Hchange Hdiffer Hbetween Hwait v'.
  set (w1 := dispatch (InboxAction (InboxSlice.SetSearchQuery first)) (world v)).
  set (w2 := dispatch (InboxAction (InboxSlice.SetSearchQuery second)) w1).
  assert (elapse api between (handleSearchChange api first v)
          = {| world := w1; debounce := Some ((500 - between)%nat, first) |})
    as Htyped.
  { rewrite (handleSearchChange_arms_timer api first v Hfirst Hchange).
    apply elapse_before_deadline; [reflexivity | exact Hbetween]. }
  assert (handleSearchChange api second
            {| world := w1; debounce := Some ((500 - between)%nat, first) |}
          = {| world := w2; debounce := Some (500%nat, second) |}) as Hretyped.
  { apply handleSearchChange_arms_timer; [exact Hsecond|].
    cbn [world]. subst w1. rewrite dispatch_setSearchQuery. exact Hdiffer. }
  assert (v' = {| world :=
                    fst (fetchInboxList api 1 second
                           (dispatch (InboxAction InboxSlice.ResetPageNumber) w2));
                  debounce := None |}) as ->.
  { subst v'. rewrite Htyped, Hretyped.
    exact (elapse_at_deadline wait
             {| world := w2; debounce := Some (500%nat, second) |}
             500%nat second eq_refl Hwait). }
  cbn [world debounce].
  destruct (fetchInboxList_keeps_cursor 1 second
              (dispatch (InboxAction InboxSlice.ResetPageNumber) w2)) as [Hq Hp].
  rewrite Hq, Hp, fetchInboxList_calls.
  subst w2 w1.
  rewrite dispatch_resetPageNumber, !dispatch_setSearchQuery.
  cbn [trace state inbox InboxSlice.searchQuery InboxSlice.pageNumber
       InboxSlice.resetPageNumber InboxSlice.setSearchQuery].
  repeat split.
Qed.

End InboxComponent.

Lemma mount_fetches_twice_witness :
  Store.calls
    (Store.trace (Inbox.world (Inbox.mount Samples.online Store.initialState_world)))
  = [Store.FetchInboxListCall 1 ""; Store.FetchInboxListCall 1 ""]
  /\ Inbox.debounce (Inbox.mount Samples.online Store.initialState_world) = None.
Proof.
  apply (mount_fetches_twice Samples.online Store.initialState_world);
    reflexivity.
Defined.

Lemma debounce_fetches_latest_only_witness :
  let v' :=
    Inbox.elapse Samples.online 500
      (Inbox.handleSearchChange Samples.online "bo"
         (Inbox.elapse Samples.online 120
            (Inbox.handleSearchChange Samples.online "b" Fixtures.browsing))) in
  Store.calls (Store.trace (Inbox.world v'))
  = [Store.FetchInboxListCall 1 "bo"]
  /\ InboxSlice.searchQuery (Store.inbox (Store.state (Inbox.world v'))) = "bo"
  /\ InboxSlice.pageNumber (Store.inbox (Store.state (Inbox.world v'))) = 1
  /\ Inbox.debounce v' = None
  /\ forall later, Inbox.elapse Samples.online later v' = v'.
Proof.
  apply (debounce_fetches_latest_only Samples.online "b" "bo" 120 500
           Fixtures.browsing); try discriminate; lia.
Defined.

(** ** Selecting a conversation *)
Section Selecting.
Import Store MessengerContent.

(** X30: a click on an entry selects its peer and empties the conversation:
    no message, page 1, no further page, no draft, not replying; the
    loading flag and the error of the messages store stay as they are,
    the inbox list, its query and its timer are not touched, nothing is
    sent or notified by the click itself, and the drawer flips. *)
Theorem handleInboxClick_resets_conversation (username : option string)
    (s : Shell) :
  let w := Inbox.world (view s) in
  let w' := Inbox.world (view (handleInboxClick username s)) in
  InboxSlice.selectedUser (inbox (state w')) = username
  /\ InboxSlice.inboxList (inbox (state w')) = InboxSlice.inboxList (inbox (state w))
  /\ InboxSlice.searchQuery (inbox (state w')) = InboxSlice.searchQuery (inbox (state w))
  /\ MessagesSlice.messagesList (messages (state w')) = []
  /\ MessagesSlice.pageNumber (messages (state w')) = 1
  /\ MessagesSlice.hasMore (messages (state w')) = false
  /\ MessagesSlice.currentMessage (messages (state w')) = ""
  /\ MessagesSlice.isReplying (messages (state w')) = false
  /\ MessagesSlice.loading (messages (state w'))
     = MessagesSlice.loading (messages (state w))
  /\ MessagesSlice.error (messages (state w'))
     = MessagesSlice.error (messages (state w))
  /\ user (state w') = user (state w)
  /\ trace w' = trace w
  /\ Inbox.debounce (view (handleInboxClick username s)) = Inbox.debounce (view s)
  /\ isDrawerShown (handleInboxClick username s) = negb (isDrawerShown s).
Proof.
  cbv zeta. unfold handleInboxClick, Inbox.handleInboxClick, Inbox.on_world.
  simpl. rewrite !app_nil_r. repeat split.
Qed.

End Selecting.
